(** * wormhole-connector

    The command entry point (cmd/root.go) and the cluster layers behind it.

    Module [Cmd] is a shallow embedding of package [cmd]: the flag table
    and the viper bindings of [init], [setLogLevel] and
    [runWormholeConnector].  The entry point is a straight-line program
    that calls into package [internal/connector]; it is embedded in a small
    trace monad whose computations return, end the process, or stay
    blocked.  Modules [Consensus], [Membership] and [Lifecycle] describe
    the layers the entry point calls into, as the specification has them.
    The properties follow in [CmdFacts], [ConsensusFacts],
    [MembershipFacts] and [LifecycleFacts]. *)

From stdpp Require Import gmap strings list.
From Stdlib Require Import ZArith Ascii.

Module Cmd.

(** ** Values, durations, signals *)

Definition error := string.

(** What a flag, an environment entry or a config-file entry holds. *)
Inductive value :=
| VString (s : string)
| VInt (n : Z)
| VDuration (ns : Z)
| VBool (b : bool).

(** [time.Duration] counts nanoseconds. *)
Definition Second : Z := 1000000000.
Definition Minute : Z := 60 * Second.

Inductive signal := SIGHUP | SIGINT | SIGQUIT | SIGKILL | SIGTERM.

#[global] Instance signal_eq_dec : EqDecision signal.
Proof. solve_decision. Defined.

(** [os.Interrupt] *)
Definition Interrupt : signal := SIGINT.

Inductive level := DebugLevel | InfoLevel | ErrorLevel.

(** ** The flag table of [init] (root.go:75-91) *)

Definition defaultDataDir (home : string) : string :=
  home +:+ "/.config/wormhole-connector".

Definition persistentFlags (home : string) : list (string * value) :=
  [ ("config", VString "");
    ("kyma-server", VString "https://localhost:9090");
    ("kyma-reverse-tunnel-port", VInt 9091);
    ("timeout", VDuration (5 * Minute));
    ("serf-member-addrs", VString "");
    ("serf-port", VInt 1111);
    ("raft-port", VInt 1112);
    ("local-addr", VString "127.0.0.1:8080");
    ("data-dir", VString (defaultDataDir home));
    ("trust-ca-file", VString "");
    ("insecure", VBool false);
    ("cert-file", VString "connector.pem");
    ("key-file", VString "connector-key.pem");
    ("verbose", VBool false);
    ("quiet", VBool false);
    ("http-mode", VBool false) ].

(** The viper bindings of [init] (root.go:93-106): viper key, flag name. *)
Definition bindings : list (string * string) :=
  [ ("config", "config");
    ("kymaServer", "kyma-server");
    ("kymaReverseTunnelPort", "kyma-reverse-tunnel-port");
    ("timeout", "timeout");
    ("serf.memberAddrs", "serf-member-addrs");
    ("serf.port", "serf-port");
    ("raft.port", "raft-port");
    ("localAddr", "local-addr");
    ("dataDir", "data-dir");
    ("trustCAFile", "trust-ca-file");
    ("insecure", "insecure");
    ("certFile", "cert-file");
    ("keyFile", "key-file");
    ("httpMode", "http-mode") ].

Fixpoint assoc {A} (k : string) (l : list (string * A)) : option A :=
  match l with
  | [] => None
  | (k', a) :: l' => if decide (k = k') then Some a else assoc k l'
  end.

(** ** What the process is started with *)

Record inputs := {
  in_home : string;              (* os.Getenv("HOME") *)
  in_flags : gmap string value;  (* flags given on the command line, by flag name *)
  in_env : gmap string value;    (* environment entries, by the viper key they match *)
  in_file : gmap string value    (* the config file read by initConfig, by viper key;
                                    empty when none was found *)
}.

(** The package-level flag variables ([flagCertFile], [flagVerbose], ...):
    pflag stores the command-line value when the flag is given and the
    default otherwise. *)
Definition flagVar (inp : inputs) (flag : string) : option value :=
  match in_flags inp !! flag with
  | Some v => Some v
  | None => assoc flag (persistentFlags (in_home inp))
  end.

(** [viper.Get] on a key after [BindPFlag] and [AutomaticEnv]: a flag that
    was given wins, then the environment, then the config file, then the
    default of the bound flag. *)
Definition viperGet (inp : inputs) (key : string) : option value :=
  match assoc key bindings with
  | Some flag =>
      match in_flags inp !! flag with
      | Some v => Some v
      | None =>
          match in_env inp !! key with
          | Some v => Some v
          | None =>
              match in_file inp !! key with
              | Some v => Some v
              | None => assoc flag (persistentFlags (in_home inp))
              end
          end
      end
  | None =>
      match in_env inp !! key with
      | Some v => Some v
      | None => in_file inp !! key
      end
  end.

(** Typed reads; a missing or ill-typed entry reads as Go's zero value. *)
Definition asString (o : option value) : string :=
  match o with Some (VString s) => s | _ => "" end.
Definition asInt (o : option value) : Z :=
  match o with Some (VInt n) => n | _ => 0%Z end.
Definition asDuration (o : option value) : Z :=
  match o with Some (VDuration d) => d | _ => 0%Z end.
Definition asBool (o : option value) : bool :=
  match o with Some (VBool b) => b | _ => false end.

Definition flagCertFile (inp : inputs) : string := asString (flagVar inp "cert-file").
Definition flagKeyFile (inp : inputs) : string := asString (flagVar inp "key-file").
Definition flagVerbose (inp : inputs) : bool := asBool (flagVar inp "verbose").
Definition flagQuiet (inp : inputs) : bool := asBool (flagVar inp "quiet").
Definition flagHttpMode (inp : inputs) : bool := asBool (flagVar inp "http-mode").

(** [connector.WormholeConnectorConfig], with the fields the literal at
    root.go:141-153 fills in. *)
Record WormholeConnectorConfig := {
  KymaServer : string;
  KymaReverseTunnelPort : Z;
  RaftPort : Z;
  LocalAddr : string;
  SerfMemberAddrs : string;
  SerfPort : Z;
  Timeout : Z;
  DataDir : string;
  TrustCAFile : string;
  Insecure : bool;
  HttpMode : bool
}.

(** ** Signal notification ([os/signal]) *)

(** A buffered channel of signals together with the signals it was
    registered for. *)
Record notifier := {
  chan_cap : nat;
  chan_buf : list signal;
  subscribed : list signal
}.

(** [make(chan os.Signal, n)] followed by [signal.Notify(c, sigs...)]. *)
Definition Notify (n : nat) (sigs : list signal) : notifier :=
  {| chan_cap := n; chan_buf := []; subscribed := sigs |}.

(** [signal.Notify] with no signal listed relays every signal; SIGKILL can
    never be caught. *)
Definition relays (c : notifier) (s : signal) : bool :=
  negb (bool_decide (s = SIGKILL))
  && match subscribed c with
     | [] => true
     | _ => bool_decide (s ∈ subscribed c)
     end.

(** Delivery never blocks: a relayed signal is dropped when the buffer is
    full, and a signal that is not relayed never reaches the channel. *)
Definition deliver (c : notifier) (s : signal) : notifier :=
  if relays c s && bool_decide (length (chan_buf c) < chan_cap c)%nat
  then {| chan_cap := chan_cap c; chan_buf := chan_buf c ++ [s];
          subscribed := subscribed c |}
  else c.

(** ** The trace monad *)

Inductive event :=
| EvViperGet (key : string)
| EvSetLevel (l : level)
| EvNotify (c : notifier)
| EvNewWormholeConnector (cfg : WormholeConnectorConfig)
| EvListenAndServe (cert key : string) (http : bool)
| EvSetupSerfRaft
| EvProbeSerfRaft
| EvLogInfo (msg : string)
| EvLogFatal (msg : string)
| EvShutdown (deadline : Z)
| EvExit (code : Z).

Inductive outcome (A : Type) :=
| Done (a : A)          (* the computation returned *)
| Exited (code : Z)     (* os.Exit was called *)
| Killed (s : signal)   (* a signal nobody subscribed to took its default action *)
| Blocked.              (* the computation waits and is never woken *)
Arguments Done {A} a.
Arguments Exited {A} code.
Arguments Killed {A} s.
Arguments Blocked {A}.

Definition proc (A : Type) : Type := list event * outcome A.

Definition trace {A} (p : proc A) : list event := p.1.
Definition result {A} (p : proc A) : outcome A := p.2.

#[global] Instance proc_ret : MRet proc := λ A a, ([], Done a).
#[global] Instance proc_bind : MBind proc := λ A B f m,
  match m.2 with
  | Done a => (m.1 ++ (f a).1, (f a).2)
  | Exited c => (m.1, Exited c)
  | Killed s => (m.1, Killed s)
  | Blocked => (m.1, Blocked)
  end.

Definition emit (e : event) : proc unit := ([e], Done tt).

(** [os.Exit(code)] *)
Definition osExit {A} (code : Z) : proc A := ([EvExit code], Exited code).

(** logrus' [log.Fatal]: the entry is logged, then the process exits
    with status 1. *)
Definition logFatal {A} (msg : string) : proc A :=
  emit (EvLogFatal msg) ;; osExit 1.

Definition logInfo (msg : string) : proc unit := emit (EvLogInfo msg).

(** ** Package [internal/connector], as far as the entry point sees it *)

(** What a call to [ListenAndServe] does as seen from the caller, which
    looks at no result: it comes back, or the process is gone. *)
Inductive listen_outcome :=
| Serving
| Aborts (e : error).

(** What [ProbeSerfRaft] does with the channel it is handed, in the state
    the channel is in: it comes back with an error or nil, or it keeps
    waiting. *)
Inductive probe_outcome :=
| Returns (err : option error)
| Waits.

(** The connector package.  The handle [w] that [NewWormholeConnector]
    returns is built from the configuration, so its methods take the
    configuration they were built from. *)
Record connector := {
  NewWormholeConnector : WormholeConnectorConfig → option error;
  ListenAndServe : WormholeConnectorConfig → string → string → bool → listen_outcome;
  SetupSerfRaft : WormholeConnectorConfig → option error;
  ProbeSerfRaft : WormholeConnectorConfig → notifier → probe_outcome;
  Shutdown : WormholeConnectorConfig → Z → option error
}.

(** ** [setLogLevel] (root.go:126-138) *)

Definition setLogLevel (inp : inputs) : proc unit :=
  (if flagVerbose inp && flagQuiet inp
   then logFatal "can't set both verbose and quiet flags"
   else mret tt) ;;
  if flagVerbose inp then emit (EvSetLevel DebugLevel)
  else if flagQuiet inp then emit (EvSetLevel ErrorLevel)
  else emit (EvSetLevel InfoLevel).

(** ** [runWormholeConnector] (root.go:140-183) *)

Definition viperGetString (inp : inputs) (key : string) : proc string :=
  emit (EvViperGet key) ;; mret (asString (viperGet inp key)).
Definition viperGetInt (inp : inputs) (key : string) : proc Z :=
  emit (EvViperGet key) ;; mret (asInt (viperGet inp key)).
Definition viperGetDuration (inp : inputs) (key : string) : proc Z :=
  emit (EvViperGet key) ;; mret (asDuration (viperGet inp key)).
Definition viperGetBool (inp : inputs) (key : string) : proc bool :=
  emit (EvViperGet key) ;; mret (asBool (viperGet inp key)).

Definition buildConfig (inp : inputs) : proc WormholeConnectorConfig :=
  kymaServer ← viperGetString inp "kymaServer";
  kymaReverseTunnelPort ← viperGetInt inp "kymaReverseTunnelPort";
  raftPort ← viperGetInt inp "raft.port";
  localAddr ← viperGetString inp "localAddr";
  serfMemberAddrs ← viperGetString inp "serf.memberAddrs";
  serfPort ← viperGetInt inp "serf.port";
  timeout ← viperGetDuration inp "timeout";
  dataDir ← viperGetString inp "dataDir";
  trustCAFile ← viperGetString inp "trustCAFile";
  insecure ← viperGetBool inp "insecure";
  httpMode ← viperGetBool inp "httpMode";
  mret {| KymaServer := kymaServer;
          KymaReverseTunnelPort := kymaReverseTunnelPort;
          RaftPort := raftPort;
          LocalAddr := localAddr;
          SerfMemberAddrs := serfMemberAddrs;
          SerfPort := serfPort;
          Timeout := timeout;
          DataDir := dataDir;
          TrustCAFile := trustCAFile;
          Insecure := insecure;
          HttpMode := httpMode |}.

(** The calls into the connector, each leaving its mark in the trace. *)
Definition callNew (w : connector) (cfg : WormholeConnectorConfig) : proc (option error) :=
  emit (EvNewWormholeConnector cfg) ;; mret (NewWormholeConnector w cfg).

Definition callListenAndServe (w : connector) (cfg : WormholeConnectorConfig)
    (cert key : string) (http : bool) : proc unit :=
  emit (EvListenAndServe cert key http) ;;
  match ListenAndServe w cfg cert key http with
  | Serving => mret tt
  | Aborts e => logFatal e
  end.

Definition callSetupSerfRaft (w : connector) (cfg : WormholeConnectorConfig) :
    proc (option error) :=
  emit EvSetupSerfRaft ;; mret (SetupSerfRaft w cfg).

(** While the probe waits, the next signal arrives: one the channel is
    registered for is relayed to it (or dropped when the buffer is full),
    any other one takes the runtime's default action and ends the
    process. *)
Fixpoint probeLoop (w : connector) (cfg : WormholeConnectorConfig)
    (term : notifier) (signals : list signal) : outcome (option error) :=
  match ProbeSerfRaft w cfg term with
  | Returns err => Done err
  | Waits =>
      match signals with
      | [] => Blocked
      | s :: rest =>
          if relays term s then probeLoop w cfg (deliver term s) rest
          else Killed s
      end
  end.

Definition callProbeSerfRaft (w : connector) (cfg : WormholeConnectorConfig)
    (term : notifier) (signals : list signal) : proc (option error) :=
  emit EvProbeSerfRaft ;; ([], probeLoop w cfg term signals).

Definition callShutdown (w : connector) (cfg : WormholeConnectorConfig)
    (deadline : Z) : proc (option error) :=
  emit (EvShutdown deadline) ;; mret (Shutdown w cfg deadline).

Definition failOn (err : option error) : proc unit :=
  match err with
  | Some e => logFatal e
  | None => mret tt
  end.

(** [signals] are the signals that reach the process while it waits in
    [ProbeSerfRaft], in order of arrival. *)
Definition runWormholeConnector (w : connector) (signals : list signal)
    (inp : inputs) : proc unit :=
  config ← buildConfig inp;
  setLogLevel inp ;;
  let term := Notify 2 [Interrupt] in
  emit (EvNotify term) ;;
  err ← callNew w config;
  failOn err ;;
  callListenAndServe w config (flagCertFile inp) (flagKeyFile inp) (flagHttpMode inp) ;;
  err ← callSetupSerfRaft w config;
  failOn err ;;
  err ← callProbeSerfRaft w config term signals;
  failOn err ;;
  logInfo "Shutting down server..." ;;
  (* ctx, cancel := context.WithTimeout(context.Background(), 5*time.Second);
     the deferred cancel never runs, os.Exit does not run deferred calls *)
  let ctx := (5 * Second)%Z in
  _ ← callShutdown w config ctx;
  osExit 0.

(** ** Derived forms used to state the properties *)

(** The reads that [buildConfig] performs, in the order of the literal. *)
Definition configReads : list event :=
  EvViperGet <$> [ "kymaServer"; "kymaReverseTunnelPort"; "raft.port"; "localAddr";
                   "serf.memberAddrs"; "serf.port"; "timeout"; "dataDir";
                   "trustCAFile"; "insecure"; "httpMode" ].

(** The value [buildConfig] returns. *)
Definition configOf (inp : inputs) : WormholeConnectorConfig :=
  {| KymaServer := asString (viperGet inp "kymaServer");
     KymaReverseTunnelPort := asInt (viperGet inp "kymaReverseTunnelPort");
     RaftPort := asInt (viperGet inp "raft.port");
     LocalAddr := asString (viperGet inp "localAddr");
     SerfMemberAddrs := asString (viperGet inp "serf.memberAddrs");
     SerfPort := asInt (viperGet inp "serf.port");
     Timeout := asDuration (viperGet inp "timeout");
     DataDir := asString (viperGet inp "dataDir");
     TrustCAFile := asString (viperGet inp "trustCAFile");
     Insecure := asBool (viperGet inp "insecure");
     HttpMode := asBool (viperGet inp "httpMode") |}.

Definition bothFlagsMsg : string := "can't set both verbose and quiet flags".

Definition levelOf (inp : inputs) : level :=
  if flagVerbose inp then DebugLevel
  else if flagQuiet inp then ErrorLevel else InfoLevel.

Definition fatal (e : error) : list event := [EvLogFatal e; EvExit 1].

Definition term0 : notifier := Notify 2 [Interrupt].

(** The events up to and including the call of [NewWormholeConnector]. *)
Definition upToNew (inp : inputs) : list event :=
  configReads ++ [EvSetLevel (levelOf inp); EvNotify term0;
                  EvNewWormholeConnector (configOf inp)].

Definition upToListen (inp : inputs) : list event :=
  upToNew inp ++ [EvListenAndServe (flagCertFile inp) (flagKeyFile inp) (flagHttpMode inp)].

Definition upToProbe (inp : inputs) : list event :=
  upToListen inp ++ [EvSetupSerfRaft; EvProbeSerfRaft].

Definition shutdownPath : list event :=
  [EvLogInfo "Shutting down server..."; EvShutdown (5 * Second); EvExit 0].

(** Modelled from the spec: [ProbeSerfRaft] belongs to package
    [internal/connector], whose sources are not at hand.  The entry point
    blocks in it until the termination notification arrives on the channel
    it was given, and then goes on to shut down: the probe waits while the
    channel is empty and returns nil once a signal is on it. *)
Definition awaitTermination (cfg : WormholeConnectorConfig) (term : notifier) :
    probe_outcome :=
  match chan_buf term with
  | [] => Waits
  | _ :: _ => Returns None
  end.

(** A connector whose every call succeeds; [shutdown_err] is what its
    [Shutdown] returns. *)
Definition nominal (shutdown_err : option error) : connector :=
  {| NewWormholeConnector := λ _, None;
     ListenAndServe := λ _ _ _ _, Serving;
     SetupSerfRaft := λ _, None;
     ProbeSerfRaft := awaitTermination;
     Shutdown := λ _ _, shutdown_err |}.

(** What is on disk, as far as startup is concerned: whether a file holds
    readable, well-formed TLS material and whether the state persisted in a
    data directory can be read. *)
Record disk := {
  pemReadable : string → bool;
  stateReadable : string → bool
}.

(** Modelled from the spec: the methods of the handle belong to package
    [internal/connector], whose sources are not at hand.  Unreadable or
    malformed TLS material is a configuration error and ends the process
    when the listener is set up with the certificate and key it was given;
    unreadable persisted consensus and membership state in the data
    directory makes the setup of the cluster layer fail with an error. *)
Definition specConnector (fs : disk) (shutdown_err : option error) : connector :=
  {| NewWormholeConnector := λ _, None;
     ListenAndServe := λ _ cert key _,
       if pemReadable fs cert && pemReadable fs key then Serving
       else Aborts "configuration error: unreadable TLS material";
     SetupSerfRaft := λ cfg,
       if stateReadable fs (DataDir cfg) then None
       else Some "configuration error: unreadable persisted state";
     ProbeSerfRaft := awaitTermination;
     Shutdown := λ _ _, shutdown_err |}.

(** The calls into the connector package. *)
Inductive call := CallNew | CallListenAndServe | CallSetupSerfRaft | CallProbeSerfRaft
                | CallShutdown.

#[global] Instance call_eq_dec : EqDecision call.
Proof. solve_decision. Defined.

Definition callOf (e : event) : option call :=
  match e with
  | EvNewWormholeConnector _ => Some CallNew
  | EvListenAndServe _ _ _ => Some CallListenAndServe
  | EvSetupSerfRaft => Some CallSetupSerfRaft
  | EvProbeSerfRaft => Some CallProbeSerfRaft
  | EvShutdown _ => Some CallShutdown
  | _ => None
  end.

(** The grace deadlines of the [Shutdown] calls of a trace. *)
Definition shutdownDeadlines (tr : list event) : list Z :=
  omap (λ e, match e with EvShutdown d => Some d | _ => None end) tr.

(** A process started with no flag, no environment entry and no config
    file. *)
Definition bare (home : string) : inputs :=
  {| in_home := home; in_flags := ∅; in_env := ∅; in_file := ∅ |}.

Definition setFlag (flag : string) (v : value) (inp : inputs) : inputs :=
  {| in_home := in_home inp; in_flags := <[flag := v]> (in_flags inp);
     in_env := in_env inp; in_file := in_file inp |}.

Definition setFile (key : string) (v : value) (inp : inputs) : inputs :=
  {| in_home := in_home inp; in_flags := in_flags inp;
     in_env := in_env inp; in_file := <[key := v]> (in_file inp) |}.

Definition withShutdown (w : connector) (f : WormholeConnectorConfig → Z → option error) :
    connector :=
  {| NewWormholeConnector := NewWormholeConnector w;
     ListenAndServe := ListenAndServe w;
     SetupSerfRaft := SetupSerfRaft w;
     ProbeSerfRaft := ProbeSerfRaft w;
     Shutdown := f |}.

(** A deployment configured through the config file alone. *)
Definition fromFile : inputs :=
  setFile "httpMode" (VBool true)
    (setFile "certFile" (VString "/etc/wormhole/tls/server.pem")
       (setFile "keyFile" (VString "/etc/wormhole/tls/server-key.pem") (bare "/root"))).

Definition digitOf (a : Ascii.ascii) : option Z :=
  let n := Z.of_nat (Ascii.nat_of_ascii a) in
  if (48 <=? n)%Z && (n <=? 57)%Z then Some (n - 48)%Z else None.

(** Scanning an address: [None] before the first colon and after a
    character that is not a digit, [Some None] right after a colon,
    [Some (Some n)] after the digits of [n]. *)
Fixpoint portScan (s : string) (st : option (option Z)) : option (option Z) :=
  match s with
  | EmptyString => st
  | String a rest =>
      portScan rest
        (if Ascii.eqb a ":"%char then Some None
         else match st, digitOf a with
              | Some n, Some d => Some (Some (10 * default 0 n + d))%Z
              | _, _ => None
              end)
  end.

(** The port an address ends in: the decimal number after its last colon. *)
Definition addrPort (addr : string) : option Z :=
  match portScan addr None with
  | Some (Some n) => Some n
  | _ => None
  end.

Inductive portSetting := TunnelPort | ReverseTunnelPort | GossipPort | ConsensusPort.

Definition flagOf (p : portSetting) : string :=
  match p with
  | TunnelPort => "kyma-server"
  | ReverseTunnelPort => "kyma-reverse-tunnel-port"
  | GossipPort => "serf-port"
  | ConsensusPort => "raft-port"
  end.

Definition keyOf (p : portSetting) : string :=
  match p with
  | TunnelPort => "kymaServer"
  | ReverseTunnelPort => "kymaReverseTunnelPort"
  | GossipPort => "serf.port"
  | ConsensusPort => "raft.port"
  end.

(** Where the configuration value carries each port. *)
Definition portOf (cfg : WormholeConnectorConfig) (p : portSetting) : option Z :=
  match p with
  | TunnelPort => addrPort (KymaServer cfg)
  | ReverseTunnelPort => Some (KymaReverseTunnelPort cfg)
  | GossipPort => Some (SerfPort cfg)
  | ConsensusPort => Some (RaftPort cfg)
  end.

Definition defaultPort (p : portSetting) : Z :=
  match p with
  | TunnelPort => 9090
  | ReverseTunnelPort => 9091
  | GossipPort => 1111
  | ConsensusPort => 1112
  end.

(** The ports of the dispatcher Service in the deployment manifest. *)
Definition dispatcherServicePorts : list (string * Z) :=
  [ ("tunnel", 9090%Z); ("reverse-tunnel", 9091%Z) ].

Definition noTLS : disk :=
  {| pemReadable := λ _, false; stateReadable := λ _, true |}.

(** ** Further forms: the keys read, the order of the calls, the sources *)

(** The viper keys the configuration literal reads (root.go:142-152). *)
Definition configKeys : list string :=
  [ "kymaServer"; "kymaReverseTunnelPort"; "raft.port"; "localAddr";
    "serf.memberAddrs"; "serf.port"; "timeout"; "dataDir";
    "trustCAFile"; "insecure"; "httpMode" ].

(** The order in which the entry point calls into the connector
    (root.go:160-180). *)
Definition callOrder : list call :=
  [ CallNew; CallListenAndServe; CallSetupSerfRaft; CallProbeSerfRaft; CallShutdown ].

(** The same command line and home directory with another environment and
    another config file. *)
Definition withSources (env file : gmap string value) (inp : inputs) : inputs :=
  {| in_home := in_home inp; in_flags := in_flags inp;
     in_env := env; in_file := file |}.

(** The flags that are registered in [init] and read neither through viper
    into the configuration value nor bound to a key that is. *)
Definition flagsOutsideConfig : list string :=
  [ "config"; "cert-file"; "key-file"; "verbose"; "quiet" ].

End Cmd.

(** * Leader election and tunnel ownership

    The Membership & Consensus Core and the registration check of the
    Dispatcher live in package [internal/connector] and in what it builds
    on; the entry point only calls [SetupSerfRaft] and [ProbeSerfRaft].
    This module follows the specification: the Term/Leadership record, the
    quorum leader election and the per-Peer state machine. *)

Module Consensus.

(** Modelled from the spec: the per-Peer state machine Follower, Candidate,
    Leader of the election layer, whose sources are missing. *)
Inductive role := Follower | Candidate | Leader.

#[global] Instance role_eq_dec : EqDecision role.
Proof. solve_decision. Defined.

(** Modelled from the spec: the consensus fields of a Peer record (the
    election layer is missing from the sources): the term it is in, its
    role, and the candidate it voted for in that term. *)
Record consensusPeer := {
  currentTerm : nat;
  peerRole : role;
  votedFor : option nat
}.

Definition fresh : consensusPeer :=
  {| currentTerm := 0; peerRole := Follower; votedFor := None |}.

(** Modelled from the spec: the Term/Leadership record and the active
    mapping of the Dispatcher, both missing from the sources. *)
Record cluster := {
  peers : gmap nat consensusPeer;   (* the Peer table, by node identifier *)
  ballots : gmap (nat * nat) nat;   (* the votes cast: term and voter to candidate *)
  leaderLog : list (nat * nat);     (* the leadership-change entries: term and leader *)
  sessions : gmap nat nat           (* the Dispatcher's active mapping: owner to the
                                       term it registered in *)
}.

Definition start : cluster :=
  {| peers := ∅; ballots := ∅; leaderLog := []; sessions := ∅ |}.

(** A Peer not yet in the table is a follower in term 0. *)
Definition peerOf (st : cluster) (i : nat) : consensusPeer :=
  default fresh (peers st !! i).

(** Modelled from the spec: what can happen in the cluster (the election
    layer and the Dispatcher are missing from the sources). *)
Inductive electionEvent :=
| ElectionTimeout (i : nat)         (* i starts an election in the next term *)
| GrantVote (j i t : nat)           (* j answers the request of i for term t *)
| BecomeLeader (i : nat)            (* i counts its votes *)
| DiscoverTerm (i j : nat)          (* i hears from j, which is in a higher term *)
| LoseHeartbeatMajority (i : nat)   (* leader i no longer reaches a majority *)
| Register (i : nat)                (* i asks the Dispatcher to be the tunnel owner *)
| CloseSession (i : nat).           (* the Session of i is torn down *)

(** Modelled from the spec: the current term and leader that the
    Dispatcher validates a registration against (missing from the sources):
    the leadership entry of the greatest term. *)
Fixpoint currentLeadership (log : list (nat * nat)) : option (nat * nat) :=
  match log with
  | [] => None
  | e :: log' =>
      match currentLeadership log' with
      | Some a => if bool_decide (e.1 < a.1) then Some a else Some e
      | None => Some e
      end
  end.

Definition setPeer (i : nat) (p : consensusPeer) (st : cluster) : cluster :=
  {| peers := <[i := p]> (peers st); ballots := ballots st;
     leaderLog := leaderLog st; sessions := sessions st |}.

Definition castBallot (t j c : nat) (st : cluster) : cluster :=
  {| peers := peers st; ballots := <[(t, j) := c]> (ballots st);
     leaderLog := leaderLog st; sessions := sessions st |}.

Definition appendLog (e : nat * nat) (st : cluster) : cluster :=
  {| peers := peers st; ballots := ballots st;
     leaderLog := leaderLog st ++ [e]; sessions := sessions st |}.

Definition setSessions (s : gmap nat nat) (st : cluster) : cluster :=
  {| peers := peers st; ballots := ballots st;
     leaderLog := leaderLog st; sessions := s |}.

Section election.

(** The voting-eligible Peers. *)
Variable voters : gset nat.

Definition votesFor (st : cluster) (t i : nat) : gset nat :=
  filter (λ j, ballots st !! (t, j) = Some i) voters.

(** Modelled from the spec: a majority quorum of the voting-eligible Peers
    (the election layer is missing from the sources). *)
Definition majority (s : gset nat) : Prop := size voters < 2 * size s.

(** A voter grants its vote for a term above its own, or for its own term
    when it has not voted for another candidate in it. *)
Definition mayGrant (v : consensusPeer) (t i : nat) : bool :=
  bool_decide (currentTerm v < t)
  || bool_decide (currentTerm v = t)
     && bool_decide (votedFor v = None ∨ votedFor v = Some i).

(** Modelled from the spec: the registration check of the Dispatcher, which
    is missing from the sources: a registration is accepted only from the
    Peer holding current leadership. *)
Definition canRegister (st : cluster) (i : nat) : bool :=
  bool_decide (peerRole (peerOf st i) = Leader)
  && bool_decide (currentLeadership (leaderLog st)
                  = Some (currentTerm (peerOf st i), i)).

(** Modelled from the spec: the quorum leader election and the
    registration with the Dispatcher, both missing from the sources.  A
    Peer becomes candidate on an election timeout and votes for itself, a
    voter casts at most one vote per term, a candidate becomes leader on a
    majority of the votes of its term, a leader falls back to follower on
    discovering a higher term or losing its heartbeat majority.  The
    Dispatcher adds the Session of an accepted registration to its active
    mapping, and a Session leaves the mapping only when it is closed; no
    other Session is affected. *)
Definition electionStep (st : cluster) (e : electionEvent) : cluster :=
  match e with
  | ElectionTimeout i =>
      let p := peerOf st i in
      if bool_decide (i ∈ voters) && bool_decide (peerRole p ≠ Leader) then
        let t := S (currentTerm p) in
        castBallot t i i
          (setPeer i {| currentTerm := t; peerRole := Candidate; votedFor := Some i |} st)
      else st
  | GrantVote j i t =>
      let v := peerOf st j in
      if bool_decide (j ∈ voters) && bool_decide (ballots st !! (t, i) = Some i)
         && mayGrant v t i then
        castBallot t j i
          (setPeer j {| currentTerm := t;
                        peerRole := if bool_decide (currentTerm v < t) then Follower
                                    else peerRole v;
                        votedFor := Some i |} st)
      else st
  | BecomeLeader i =>
      let p := peerOf st i in
      if bool_decide (peerRole p = Candidate)
         && bool_decide (majority (votesFor st (currentTerm p) i)) then
        appendLog (currentTerm p, i)
          (setPeer i {| currentTerm := currentTerm p; peerRole := Leader;
                        votedFor := votedFor p |} st)
      else st
  | DiscoverTerm i j =>
      if bool_decide (currentTerm (peerOf st i) < currentTerm (peerOf st j)) then
        setPeer i {| currentTerm := currentTerm (peerOf st j); peerRole := Follower;
                     votedFor := None |} st
      else st
  | LoseHeartbeatMajority i =>
      let p := peerOf st i in
      if bool_decide (peerRole p = Leader) then
        setPeer i {| currentTerm := currentTerm p; peerRole := Follower;
                     votedFor := votedFor p |} st
      else st
  | Register i =>
      if canRegister st i
      then setSessions (<[i := currentTerm (peerOf st i)]> (sessions st)) st
      else st
  | CloseSession i => setSessions (delete i (sessions st)) st
  end.

Definition electionRun (evs : list electionEvent) : cluster :=
  foldl electionStep start evs.

(** ** Invariants of the reachable states *)

Record inv (st : cluster) : Prop := {
  inv_ballot : ∀ t j c, ballots st !! (t, j) = Some c →
    t ≤ currentTerm (peerOf st j)
    ∧ (t = currentTerm (peerOf st j) → votedFor (peerOf st j) = Some c);
  inv_leader : ∀ i, peerRole (peerOf st i) = Leader →
    (currentTerm (peerOf st i), i) ∈ leaderLog st;
  inv_log : ∀ t i, (t, i) ∈ leaderLog st → majority (votesFor st t i);
  inv_owner : ∀ i t, sessions st !! i = Some t → (t, i) ∈ leaderLog st
}.

Definition ballotsKept (st st' : cluster) : Prop :=
  ∀ k c, ballots st !! k = Some c → ballots st' !! k = Some c.

End election.

(** A cluster of three voting Peers. *)
Definition abc : gset nat := {[ 1; 2; 3 ]}.

(** Peer 2 times out, gets the vote of peer 1, becomes leader of term 1
    and registers; peer 3 hears of term 1, times out in turn and does the
    same in term 2 while peer 2 has not noticed. *)
Definition failover : list electionEvent :=
  [ ElectionTimeout 2; GrantVote 1 2 1; BecomeLeader 2; Register 2;
    DiscoverTerm 3 2; ElectionTimeout 3; GrantVote 1 3 2; BecomeLeader 3;
    Register 3 ].

End Consensus.

(** * Gossip membership

    The liveness side of the Peer table.  Its sources are not at hand
    either; this module follows the specification: the Peer record and the
    gossip membership protocol. *)

Module Membership.

(** Modelled from the spec: the status of a Peer (the membership layer is
    missing from the sources). *)
Inductive status := Alive | Suspect | Dead | Left.

#[global] Instance status_eq_dec : EqDecision status.
Proof. solve_decision. Defined.

(** Modelled from the spec: the liveness fields of a Peer record (the
    membership layer is missing from the sources). *)
Record gossipPeer := {
  incarnation : nat;
  peerStatus : status;
  lastSeen : nat;
  missed : nat;     (* consecutive probes missed while alive *)
  since : nat       (* when the status last changed *)
}.

(** Modelled from the spec: the probe and gossip events the membership
    layer (missing from the sources) reacts to, each with the time it
    happens at. *)
Inductive gossipEvent :=
| Join (n now : nat)           (* node n is discovered *)
| ProbeAck (n now : nat)       (* n answered a probe *)
| ProbeMiss (n now : nat)      (* n missed a probe *)
| Refute (n inc now : nat)     (* n refutes a suspicion with incarnation inc *)
| Leave (n now : nat)          (* n announces its departure *)
| Tick (now : nat).            (* the periodic timer *)

Section gossip.

(** The configured number of consecutive missed probes, the grace period of
    a suspect and the retention window of a dead Peer. *)
Variables (probeThreshold suspectGrace retention : nat).

Definition onAck (now : nat) (p : gossipPeer) : gossipPeer :=
  match peerStatus p with
  | Alive => {| incarnation := incarnation p; peerStatus := Alive; lastSeen := now;
                missed := 0; since := since p |}
  | Suspect => {| incarnation := incarnation p; peerStatus := Suspect; lastSeen := now;
                  missed := missed p; since := since p |}
  | _ => p
  end.

(** Modelled from the spec (the membership layer is missing from the
    sources): a Peer moves from alive to suspect after missing the
    configured number of consecutive probes. *)
Definition onMiss (now : nat) (p : gossipPeer) : gossipPeer :=
  match peerStatus p with
  | Alive =>
      if bool_decide (probeThreshold ≤ S (missed p))
      then {| incarnation := incarnation p; peerStatus := Suspect;
              lastSeen := lastSeen p; missed := S (missed p); since := now |}
      else {| incarnation := incarnation p; peerStatus := Alive;
              lastSeen := lastSeen p; missed := S (missed p); since := since p |}
  | _ => p
  end.

(** Modelled from the spec (the membership layer is missing from the
    sources): a suspect that refutes with a higher incarnation is alive
    again. *)
Definition onRefute (inc now : nat) (p : gossipPeer) : gossipPeer :=
  match peerStatus p with
  | Suspect =>
      if bool_decide (incarnation p < inc)
      then {| incarnation := inc; peerStatus := Alive; lastSeen := now;
              missed := 0; since := now |}
      else p
  | _ => p
  end.

(** Modelled from the spec (the membership layer is missing from the
    sources): a voluntary departure. *)
Definition onLeave (now : nat) (p : gossipPeer) : gossipPeer :=
  match peerStatus p with
  | Alive | Suspect =>
      {| incarnation := incarnation p; peerStatus := Left; lastSeen := lastSeen p;
         missed := missed p; since := now |}
  | _ => p
  end.

(** Modelled from the spec (the membership layer is missing from the
    sources): on the periodic timer a suspect whose grace period ran out
    without a refutation is declared dead, a dead Peer is evicted once the
    retention window has passed, a Peer that left is evicted at once. *)
Definition onTick (now : nat) (p : gossipPeer) : option gossipPeer :=
  match peerStatus p with
  | Alive => Some p
  | Suspect =>
      if bool_decide (since p + suspectGrace ≤ now)
      then Some {| incarnation := incarnation p; peerStatus := Dead;
                   lastSeen := lastSeen p; missed := missed p; since := now |}
      else Some p
  | Dead => if bool_decide (since p + retention ≤ now) then None else Some p
  | Left => None
  end.

Definition joined (now : nat) : gossipPeer :=
  {| incarnation := 0; peerStatus := Alive; lastSeen := now; missed := 0; since := now |}.

(** Modelled from the spec: the membership table under an event (the
    membership layer is missing from the sources). *)
Definition gossipStep (tbl : gmap nat gossipPeer) (e : gossipEvent) :
    gmap nat gossipPeer :=
  match e with
  | Join n now =>
      match tbl !! n with
      | None => <[n := joined now]> tbl
      | Some _ => tbl
      end
  | ProbeAck n now => alter (onAck now) n tbl
  | ProbeMiss n now => alter (onMiss now) n tbl
  | Refute n inc now => alter (onRefute inc now) n tbl
  | Leave n now => alter (onLeave now) n tbl
  | Tick now => omap (onTick now) tbl
  end.

Definition gossipRun (evs : list gossipEvent) : gmap nat gossipPeer := foldl gossipStep ∅ evs.

(** The status of a node in the table; [None] when it is not (or no
    longer) a member. *)
Definition statusOf (tbl : gmap nat gossipPeer) (n : nat) : option status :=
  peerStatus <$> tbl !! n.

(** The status changes the specification allows: alive to suspect, suspect
    to dead, the refutation, the departure, besides joining the table and
    being evicted from it. *)
Inductive transition : option status → option status → Prop :=
| t_stay o : transition o o
| t_join : transition None (Some Alive)
| t_suspect : transition (Some Alive) (Some Suspect)
| t_dead : transition (Some Suspect) (Some Dead)
| t_refute : transition (Some Suspect) (Some Alive)
| t_leave_alive : transition (Some Alive) (Some Left)
| t_leave_suspect : transition (Some Suspect) (Some Left)
| t_evict_dead : transition (Some Dead) None
| t_evict_left : transition (Some Left) None.

End gossip.

End Membership.

(** * Shutdown choreography

    The running handle that [NewWormholeConnector] returns and its
    [Shutdown] method are in package [internal/connector]; the entry point
    calls [Shutdown] once.  This module follows the specification of the
    Lifecycle Coordinator. *)

Module Lifecycle.

(** Modelled from the spec: the stages of the Lifecycle Coordinator, which
    is missing from the sources. *)

Inductive phase :=
| Running
| Draining (deadline : nat)   (* in-flight Streams may finish until the deadline *)
| Departing                   (* the departure is to be announced *)
| Releasing                   (* transport resources are to be released *)
| Stopped.

#[global] Instance phase_eq_dec : EqDecision phase.
Proof. solve_decision. Defined.

(** Modelled from the spec: the running handle, missing from the sources,
    with what each component holds at shutdown. *)
Record handle := {
  hPhase : phase;
  acceptingSessions : bool;   (* Dispatcher *)
  acceptingStreams : bool;    (* Tunnel Client *)
  inflight : list nat;        (* the time each in-flight Stream still needs *)
  member : bool;              (* Membership & Consensus Core *)
  transportOpen : bool        (* TLS Transport Manager *)
}.

Inductive effect :=
| StopAcceptingSessions
| StopAcceptingStreams
| StreamFinished (need : nat)
| StreamAborted (need : nat)    (* fails with a cancellation error *)
| AnnounceDeparture
| ReleaseTransport.

Definition started (streams : list nat) : handle :=
  {| hPhase := Running; acceptingSessions := true; acceptingStreams := true;
     inflight := streams; member := true; transportOpen := true |}.

(** Modelled from the spec: [handle.shutdown(deadline)], missing from the
    sources.  The request starts the choreography when the handle is
    running: the Dispatcher stops accepting Sessions and the Tunnel Client
    stops accepting Streams.  A request while a shutdown is in progress, or
    after it, is a no-op. *)
Definition shutdown (deadline : nat) (h : handle) : handle * list effect :=
  match hPhase h with
  | Running =>
      ({| hPhase := Draining deadline; acceptingSessions := false;
          acceptingStreams := false; inflight := inflight h; member := member h;
          transportOpen := transportOpen h |},
       [StopAcceptingSessions; StopAcceptingStreams])
  | _ => (h, [])
  end.

Definition settle (deadline need : nat) : effect :=
  if bool_decide (need ≤ deadline) then StreamFinished need else StreamAborted need.

(** Modelled from the spec: the next stage of a shutdown in progress (the
    Lifecycle Coordinator is missing from the sources).  In-flight Streams
    finish within the grace deadline or are aborted with a cancellation
    error, then the departure is announced, and the transport is released
    last. *)
Definition advance (h : handle) : handle * list effect :=
  match hPhase h with
  | Running => (h, [])
  | Draining deadline =>
      ({| hPhase := Departing; acceptingSessions := acceptingSessions h;
          acceptingStreams := acceptingStreams h; inflight := [];
          member := member h; transportOpen := transportOpen h |},
       settle deadline <$> inflight h)
  | Departing =>
      ({| hPhase := Releasing; acceptingSessions := acceptingSessions h;
          acceptingStreams := acceptingStreams h; inflight := inflight h;
          member := false; transportOpen := transportOpen h |},
       [AnnounceDeparture])
  | Releasing =>
      ({| hPhase := Stopped; acceptingSessions := acceptingSessions h;
          acceptingStreams := acceptingStreams h; inflight := inflight h;
          member := member h; transportOpen := false |},
       [ReleaseTransport])
  | Stopped => (h, [])
  end.

Inductive action :=
| RequestShutdown (deadline : nat)
| Progress.

Definition act (a : action) (h : handle) : handle * list effect :=
  match a with
  | RequestShutdown deadline => shutdown deadline h
  | Progress => advance h
  end.

Fixpoint exec (acts : list action) (h : handle) : handle * list effect :=
  match acts with
  | [] => (h, [])
  | a :: rest =>
      let r := act a h in
      let r' := exec rest r.1 in
      (r'.1, r.2 ++ r'.2)
  end.

End Lifecycle.

(** * Properties of the entry point *)

Module CmdFacts.
Import Cmd.

Lemma buildConfig_eq inp : buildConfig inp = (configReads, Done (configOf inp)).
Proof. reflexivity. Qed.

(** Every run of the entry point, by the point at which it ends. *)
Lemma run_cases w signals inp :
  runWormholeConnector w signals inp =
  if flagVerbose inp && flagQuiet inp
  then (configReads ++ fatal bothFlagsMsg, Exited 1)
  else match NewWormholeConnector w (configOf inp) with
  | Some e => (upToNew inp ++ fatal e, Exited 1)
  | None =>
  match ListenAndServe w (configOf inp) (flagCertFile inp) (flagKeyFile inp)
          (flagHttpMode inp) with
  | Aborts e => (upToListen inp ++ fatal e, Exited 1)
  | Serving =>
  match SetupSerfRaft w (configOf inp) with
  | Some e => (upToListen inp ++ EvSetupSerfRaft :: fatal e, Exited 1)
  | None =>
  match probeLoop w (configOf inp) term0 signals with
  | Done (Some e) => (upToProbe inp ++ fatal e, Exited 1)
  | Done None => (upToProbe inp ++ shutdownPath, Exited 0)
  | Exited c => (upToProbe inp, Exited c)
  | Killed s => (upToProbe inp, Killed s)
  | Blocked => (upToProbe inp, Blocked)
  end end end end.
Proof.
  unfold runWormholeConnector. rewrite buildConfig_eq.
  unfold setLogLevel, callNew, callListenAndServe, callSetupSerfRaft,
    callProbeSerfRaft, callShutdown, upToProbe, upToListen, upToNew, levelOf, term0.
  destruct (flagVerbose inp), (flagQuiet inp); try reflexivity;
  (cbn -[flagCertFile flagKeyFile flagHttpMode configOf configReads probeLoop];
   destruct (NewWormholeConnector w (configOf inp)); [reflexivity|];
   cbn -[flagCertFile flagKeyFile flagHttpMode configOf configReads probeLoop];
   destruct (ListenAndServe w (configOf inp) (flagCertFile inp) (flagKeyFile inp)
               (flagHttpMode inp)); [|reflexivity];
   cbn -[flagCertFile flagKeyFile flagHttpMode configOf configReads probeLoop];
   destruct (SetupSerfRaft w (configOf inp)); [reflexivity|];
   cbn -[flagCertFile flagKeyFile flagHttpMode configOf configReads probeLoop];
   destruct (probeLoop w (configOf inp) (Notify 2 [Interrupt]) signals) as [[e|]| | |];
   reflexivity).
Qed.

Lemma probeLoop_withShutdown w f cfg c signals :
  probeLoop (withShutdown w f) cfg c signals = probeLoop w cfg c signals.
Proof.
  revert c; induction signals as [|s rest IH]; intros c; simpl;
    destruct (ProbeSerfRaft w cfg c); try reflexivity.
  destruct (relays c s); [apply IH | reflexivity].
Qed.

Lemma elem_of_configReads e : e ∈ configReads → ∃ k, e = EvViperGet k.
Proof.
  unfold configReads. intros [k [-> _]]%list_elem_of_fmap. by exists k.
Qed.

(** Started with nothing set and interrupted, the connector is configured
    with the defaults, serves with the default certificate and key, and
    shuts down with a grace deadline of five seconds. *)
Example interrupted_run :
  runWormholeConnector (nominal None) [SIGINT] (bare "/home/wormhole")
  = (configReads
     ++ [EvSetLevel InfoLevel; EvNotify (Notify 2 [Interrupt]);
         EvNewWormholeConnector
           {| KymaServer := "https://localhost:9090"; KymaReverseTunnelPort := 9091;
              RaftPort := 1112; LocalAddr := "127.0.0.1:8080"; SerfMemberAddrs := "";
              SerfPort := 1111; Timeout := 300000000000;
              DataDir := "/home/wormhole/.config/wormhole-connector";
              TrustCAFile := ""; Insecure := false; HttpMode := false |};
         EvListenAndServe "connector.pem" "connector-key.pem" false;
         EvSetupSerfRaft; EvProbeSerfRaft;
         EvLogInfo "Shutting down server..."; EvShutdown 5000000000; EvExit 0],
     Exited 0).
Proof. vm_compute. reflexivity. Qed.

(** An error of the probe is fatal, and the handle is not shut down. *)
Example probe_error_run :
  runWormholeConnector
    {| NewWormholeConnector := λ _, None; ListenAndServe := λ _ _ _ _, Serving;
       SetupSerfRaft := λ _, None;
       ProbeSerfRaft := λ _ _, Returns (Some "raft: no quorum");
       Shutdown := λ _ _, None |} [] (bare "/home/wormhole")
  = (upToProbe (bare "/home/wormhole") ++ [EvLogFatal "raft: no quorum"; EvExit 1],
     Exited 1).
Proof. vm_compute. reflexivity. Qed.

Ltac run_split w signals inp :=
  rewrite ?(run_cases w signals inp);
  destruct (flagVerbose inp && flagQuiet inp) eqn:?;
  [| destruct (NewWormholeConnector w (configOf inp)) eqn:?;
     [| destruct (ListenAndServe w (configOf inp) (flagCertFile inp) (flagKeyFile inp)
                   (flagHttpMode inp)) eqn:?;
        [ destruct (SetupSerfRaft w (configOf inp)) eqn:?;
          [| destruct (probeLoop w (configOf inp) term0 signals) as [[?|]| | |] eqn:? ] |]]].

Ltac elem_cases H :=
  unfold trace, upToProbe, upToListen, upToNew, shutdownPath, fatal in H; simpl in H;
  repeat (apply elem_of_app in H as [H|H]);
  try (apply elem_of_configReads in H as [? H]);
  repeat (apply elem_of_cons in H as [H|H]);
  try (apply elem_of_nil in H; destruct H);
  try discriminate H.

(** C8.  With both the verbose and the quiet flag set, [setLogLevel] ends
    the process fatally: the run consists of the configuration reads
    followed by the fatal log entry and exit status 1, and the connector
    is never constructed.  Otherwise [setLogLevel] returns after setting
    the level to Debug when verbose is set, to Error when quiet is set and
    to Info when neither is. *)
Theorem setLogLevel_verbose_quiet (w : connector) (signals : list signal) (inp : inputs) :
  if flagVerbose inp && flagQuiet inp
  then setLogLevel inp = ([EvLogFatal "can't set both verbose and quiet flags"; EvExit 1],
                          Exited 1)
       ∧ runWormholeConnector w signals inp
         = (configReads ++ [EvLogFatal "can't set both verbose and quiet flags"; EvExit 1],
            Exited 1)
       ∧ ∀ cfg, EvNewWormholeConnector cfg ∉ trace (runWormholeConnector w signals inp)
  else setLogLevel inp
       = ([EvSetLevel (if flagVerbose inp then DebugLevel
                       else if flagQuiet inp then ErrorLevel else InfoLevel)], Done tt)
       ∧ ∃ rest, trace (runWormholeConnector w signals inp)
                 = configReads
                   ++ EvSetLevel (if flagVerbose inp then DebugLevel
                                  else if flagQuiet inp then ErrorLevel else InfoLevel)
                   :: EvNotify (Notify 2 [Interrupt])
                   :: EvNewWormholeConnector (configOf inp) :: rest.
Proof.
  rewrite (run_cases w signals inp).
  destruct (flagVerbose inp && flagQuiet inp) eqn:Hvq.
  - apply andb_true_iff in Hvq as [Hv Hq].
    split_and!.
    + unfold setLogLevel. rewrite Hv, Hq. reflexivity.
    + reflexivity.
    + intros cfg H. elem_cases H.
  - split.
    + unfold setLogLevel. destruct (flagVerbose inp), (flagQuiet inp);
        try discriminate Hvq; reflexivity.
    + fold (levelOf inp).
      destruct (NewWormholeConnector w (configOf inp));
        [| destruct (ListenAndServe w (configOf inp) (flagCertFile inp) (flagKeyFile inp)
                       (flagHttpMode inp));
           [ destruct (SetupSerfRaft w (configOf inp));
             [| destruct (probeLoop w (configOf inp) term0 signals) as [[?|]| | |] ] |]];
        unfold trace, upToProbe, upToListen, upToNew; simpl;
        rewrite <- ?app_assoc; simpl; eexists; reflexivity.
Qed.

(** C9.  A run that reaches the shutdown step ends with exit status 0, its
    last event being [os.Exit(0)], and neither the trace nor the exit
    status depends on what [Shutdown] returns: the returned error is
    dropped. *)
Theorem shutdown_exit_zero (w : connector) (signals : list signal) (inp : inputs) (d : Z) :
  EvShutdown d ∈ trace (runWormholeConnector w signals inp) →
  result (runWormholeConnector w signals inp) = Exited 0
  ∧ last (trace (runWormholeConnector w signals inp)) = Some (EvExit 0)
  ∧ ∀ f, runWormholeConnector (withShutdown w f) signals inp
         = runWormholeConnector w signals inp.
Proof.
  intros H. split_and!.
  - revert H. run_split w signals inp; intros H; elem_cases H. reflexivity.
  - revert H. run_split w signals inp; intros H; elem_cases H.
    reflexivity.
  - intros f. rewrite !run_cases. simpl. rewrite probeLoop_withShutdown. reflexivity.
Qed.

Lemma shutdown_exit_zero_witness :
  EvShutdown (5 * Second)
    ∈ trace (runWormholeConnector (nominal (Some "raft: shutdown failed")) [SIGINT] (bare "/root"))
  ∧ result (runWormholeConnector (nominal (Some "raft: shutdown failed")) [SIGINT] (bare "/root"))
    = Exited 0.
Proof.
  assert (H : EvShutdown (5 * Second)
    ∈ trace (runWormholeConnector (nominal (Some "raft: shutdown failed")) [SIGINT]
               (bare "/root"))).
  { vm_compute. do 18 apply list_elem_of_further. apply list_elem_of_here. }
  split; [exact H|].
  exact (proj1 (shutdown_exit_zero _ _ _ _ H)).
Defined.

Lemma elem_of_deliver_buf c s x :
  x ∈ chan_buf (deliver c s) → x ∈ chan_buf c ∨ (x = s ∧ relays c s = true).
Proof.
  unfold deliver. destruct (relays c s); simpl; [|by left].
  case_bool_decide; simpl; [|by left].
  intros [?|Hx%list_elem_of_singleton]%elem_of_app; subst; auto.
Qed.

Lemma deliver_length c s :
  (length (chan_buf c) ≤ chan_cap c → length (chan_buf (deliver c s)) ≤ chan_cap c)%nat.
Proof.
  unfold deliver. destruct (relays c s); simpl; [|done].
  case_bool_decide; simpl; [|done]. rewrite length_app. simpl. lia.
Qed.

Lemma deliver_static c s :
  chan_cap (deliver c s) = chan_cap c ∧ subscribed (deliver c s) = subscribed c.
Proof. unfold deliver. by destruct (_ && _). Qed.

Lemma relays_deliver c s s' : relays (deliver c s) s' = relays c s'.
Proof. unfold relays. by rewrite (proj2 (deliver_static c s)). Qed.

Lemma relays_term0 s : relays (Notify 2 [Interrupt]) s = true ↔ s = SIGINT.
Proof. destruct s; vm_compute; split; congruence. Qed.

(** What is on the channel after any sequence of signals reached the
    process. *)
Lemma foldl_deliver_inv c arrived :
  (length (chan_buf c) ≤ chan_cap c)%nat →
  let c' := foldl deliver c arrived in
  chan_cap c' = chan_cap c ∧ subscribed c' = subscribed c
  ∧ (length (chan_buf c') ≤ chan_cap c)%nat
  ∧ ∀ x, x ∈ chan_buf c' → x ∈ chan_buf c ∨ relays c x = true.
Proof.
  revert c. induction arrived as [|s rest IH]; intros c Hlen; simpl.
  - split_and!; auto.
  - destruct (deliver_static c s) as [Hcap Hsub].
    destruct (IH (deliver c s)) as (IH1 & IH2 & IH3 & IH4).
    { rewrite Hcap. by apply deliver_length. }
    split_and!; try congruence.
    intros x Hx. destruct (IH4 x Hx) as [Hin|Hr].
    + apply elem_of_deliver_buf in Hin as [?|[-> ?]]; auto.
    + right. by rewrite relays_deliver in Hr.
Qed.

(** A probe that waits while the channel is empty comes back only after
    the first signal to arrive was relayed. *)
Lemma probeLoop_done_head w cfg c signals r :
  ProbeSerfRaft w cfg c = Waits →
  probeLoop w cfg c signals = Done r →
  ∃ s, head signals = Some s ∧ relays c s = true.
Proof.
  intros Hw. destruct signals as [|s rest]; simpl; rewrite Hw; [done|].
  destruct (relays c s) eqn:Hr; [|done]. eauto.
Qed.

(** C10.  The only channel the entry point registers has capacity 2 and is
    registered for the interrupt signal alone.  So a signal is relayed to
    it exactly when it is SIGINT (SIGTERM is not), the channel never holds
    more than two signals and holds nothing but SIGINT, and when the probe
    waits on the empty channel the shutdown step is reached only if the
    first signal to arrive is an interrupt. *)
Theorem notify_interrupt_only (w : connector) (signals : list signal) (inp : inputs) :
  (∀ c, EvNotify c ∈ trace (runWormholeConnector w signals inp) →
        c = Notify 2 [Interrupt] ∧ chan_cap c = 2%nat ∧ subscribed c = [SIGINT])
  ∧ (∀ s, relays (Notify 2 [Interrupt]) s = true ↔ s = SIGINT)
  ∧ relays (Notify 2 [Interrupt]) SIGTERM = false
  ∧ (∀ arrived,
       (length (chan_buf (foldl deliver (Notify 2 [Interrupt]) arrived)) ≤ 2)%nat
       ∧ ∀ s, s ∈ chan_buf (foldl deliver (Notify 2 [Interrupt]) arrived) → s = SIGINT)
  ∧ (ProbeSerfRaft w (configOf inp) (Notify 2 [Interrupt]) = Waits →
     ∀ d, EvShutdown d ∈ trace (runWormholeConnector w signals inp) →
          head signals = Some SIGINT).
Proof.
  split_and!.
  - intros c. run_split w signals inp; intros H; elem_cases H;
      injection H as ->; done.
  - apply relays_term0.
  - reflexivity.
  - intros arrived.
    destruct (foldl_deliver_inv (Notify 2 [Interrupt]) arrived) as (_ & _ & Hlen & Hin);
      [simpl; lia|].
    split; [exact Hlen|].
    intros s Hs. destruct (Hin s Hs) as [Hnil|Hr].
    + by apply elem_of_nil in Hnil.
    + by apply relays_term0.
  - intros Hw d. run_split w signals inp; intros H; elem_cases H.
    match goal with Hp : probeLoop _ _ _ _ = Done None |- _ =>
      destruct (probeLoop_done_head _ _ _ _ _ Hw Hp) as (s & -> & Hs) end.
    by apply relays_term0 in Hs as ->.
Qed.

(** ** Reads through viper against reads of the flag variables *)

Lemma viperGet_setFlag inp f v k :
  viperGet (setFlag f v inp) k =
  match assoc k bindings with
  | Some f' => if decide (f = f') then Some v else viperGet inp k
  | None => viperGet inp k
  end.
Proof.
  unfold viperGet, setFlag; cbn [in_flags in_env in_file in_home].
  destruct (assoc k bindings) as [f'|]; [|done].
  case_decide as Hf.
  - subst. by rewrite lookup_insert_eq.
  - by rewrite lookup_insert_ne.
Qed.

Lemma viperGet_setFile_ne inp k v k' :
  k ≠ k' → viperGet (setFile k v inp) k' = viperGet inp k'.
Proof.
  intros Hk. unfold viperGet, setFile; cbn [in_flags in_env in_file in_home].
  by rewrite lookup_insert_ne.
Qed.

Lemma viperGet_setFile_bare home k v :
  viperGet (setFile k v (bare home)) k = Some v.
Proof.
  unfold viperGet, setFile, bare; cbn [in_flags in_env in_file in_home].
  rewrite lookup_insert_eq, !lookup_empty.
  by destruct (assoc k bindings).
Qed.

(** The flag variables see the command line only. *)
Lemma flagVar_setFile inp k v f : flagVar (setFile k v inp) f = flagVar inp f.
Proof. reflexivity. Qed.

(** C2.  [ListenAndServe] is handed the package-level flag variables, not
    the configuration value and not what viper holds for the keys bound at
    root.go:104-106.  With the certificate, the key and the http mode set
    in the config file only, the configuration value has [HttpMode] true and
    viper holds the configured paths, yet the call receives the flag
    defaults ["connector.pem"], ["connector-key.pem"] and [false]; in
    general the three arguments never depend on the config file. *)
Theorem listenAndServe_takes_flag_variables :
  HttpMode (configOf fromFile) = true
  ∧ asString (viperGet fromFile "certFile") = "/etc/wormhole/tls/server.pem"
  ∧ asString (viperGet fromFile "keyFile") = "/etc/wormhole/tls/server-key.pem"
  ∧ trace (runWormholeConnector (nominal None) [SIGINT] fromFile)
    = configReads
      ++ [EvSetLevel InfoLevel; EvNotify (Notify 2 [Interrupt]);
          EvNewWormholeConnector (configOf fromFile);
          EvListenAndServe "connector.pem" "connector-key.pem" false;
          EvSetupSerfRaft; EvProbeSerfRaft;
          EvLogInfo "Shutting down server..."; EvShutdown (5 * Second); EvExit 0]
  ∧ ∀ inp k v,
      flagCertFile (setFile k v inp) = flagCertFile inp
      ∧ flagKeyFile (setFile k v inp) = flagKeyFile inp
      ∧ flagHttpMode (setFile k v inp) = flagHttpMode inp.
Proof.
  split_and!; try (vm_compute; reflexivity).
  intros inp k v. split_and!; reflexivity.
Qed.

(** ** Ports *)

(** C5.  Started with nothing set, the connector is configured with
    tunnel port 9090 (the port of the default server address),
    reverse-tunnel port 9091, gossip port 1111 and consensus port 1112.
    Each of the four has a flag and a viper key of its own; giving the flag
    or the config-file key of one of them leaves the other three as they
    were, and the value given is the value the configuration carries. *)
Theorem default_ports_independent :
  (∀ home p, portOf (configOf (bare home)) p = Some (defaultPort p))
  ∧ assoc "tunnel" dispatcherServicePorts = Some (defaultPort TunnelPort)
  ∧ assoc "reverse-tunnel" dispatcherServicePorts = Some (defaultPort ReverseTunnelPort)
  ∧ (∀ p, assoc (keyOf p) bindings = Some (flagOf p))
  ∧ (∀ p q, p ≠ q → flagOf p ≠ flagOf q ∧ keyOf p ≠ keyOf q)
  ∧ (∀ inp p q v, p ≠ q →
       portOf (configOf (setFlag (flagOf p) v inp)) q = portOf (configOf inp) q
       ∧ portOf (configOf (setFile (keyOf p) v inp)) q = portOf (configOf inp) q)
  ∧ (∀ inp a n,
       KymaServer (configOf (setFlag "kyma-server" (VString a) inp)) = a
       ∧ KymaReverseTunnelPort
           (configOf (setFlag "kyma-reverse-tunnel-port" (VInt n) inp)) = n
       ∧ SerfPort (configOf (setFlag "serf-port" (VInt n) inp)) = n
       ∧ RaftPort (configOf (setFlag "raft-port" (VInt n) inp)) = n)
  ∧ (∀ home a n,
       KymaServer (configOf (setFile "kymaServer" (VString a) (bare home))) = a
       ∧ KymaReverseTunnelPort
           (configOf (setFile "kymaReverseTunnelPort" (VInt n) (bare home))) = n
       ∧ SerfPort (configOf (setFile "serf.port" (VInt n) (bare home))) = n
       ∧ RaftPort (configOf (setFile "raft.port" (VInt n) (bare home))) = n)
  ∧ ∀ home, portOf (configOf (setFlag "kyma-server" (VString "https://kyma.example.com:8443")
                                 (bare home))) TunnelPort = Some 8443%Z.
Proof.
  split_and!.
  - intros home []; reflexivity.
  - reflexivity.
  - reflexivity.
  - intros []; reflexivity.
  - intros [] [] Hpq; try done; split; discriminate.
  - intros inp p q v Hpq. split.
    + destruct p, q; try done; unfold portOf, configOf; simpl;
        rewrite viperGet_setFlag; reflexivity.
    + destruct p, q; try done; unfold portOf, configOf; simpl;
        (rewrite viperGet_setFile_ne; [reflexivity | discriminate]).
  - intros inp a n. unfold configOf; simpl. rewrite !viperGet_setFlag. done.
  - intros home a n. unfold configOf; simpl. rewrite !viperGet_setFile_bare. done.
  - intros home. unfold portOf, configOf; simpl. rewrite viperGet_setFlag. reflexivity.
Qed.

(** ** Startup failures and the shutdown path *)

Lemma awaitTermination_loop w cfg c signals :
  (∀ cfg' c', ProbeSerfRaft w cfg' c' = awaitTermination cfg' c') →
  chan_buf c = [] →
  probeLoop w cfg c signals =
  match signals with
  | [] => Blocked
  | s :: _ => if relays c s
              then (if bool_decide (0 < chan_cap c)%nat then Done None else
                      probeLoop w cfg c (tail signals))
              else Killed s
  end.
Proof.
  intros Hw Hc. destruct signals as [|s rest]; simpl; rewrite Hw; unfold awaitTermination;
    rewrite Hc; [done|].
  destruct (relays c s) eqn:Hr; [|done].
  unfold deliver. rewrite Hr, Hc. simpl.
  case_bool_decide; simpl; [|done].
  destruct rest; simpl; rewrite Hw; reflexivity.
Qed.

(** No call into the connector is made twice, whatever the connector
    does. *)
Lemma calls_NoDup w signals inp :
  NoDup (omap callOf (trace (runWormholeConnector w signals inp))).
Proof.
  run_split w signals inp;
    unfold trace, upToProbe, upToListen, upToNew, shutdownPath, fatal; simpl;
    apply (bool_decide_unpack _); vm_compute; reflexivity.
Qed.




(** C3.  When the certificate or the key handed to [ListenAndServe] is
    unreadable or malformed, or the state persisted in the data directory
    is unreadable, the run ends fatally at startup: exit status 1 after the
    fatal log entry, before the probe and without a shutdown.  Nothing is
    retried: no call into the connector is made twice in any run, and an
    error returned by [NewWormholeConnector] or [SetupSerfRaft] is fatal
    for every connector. *)
Theorem unreadable_material_is_fatal (fs : disk) (serr : option error)
    (signals : list signal) (inp : inputs) :
  pemReadable fs (flagCertFile inp) && pemReadable fs (flagKeyFile inp)
    && stateReadable fs (DataDir (configOf inp)) = false →
  result (runWormholeConnector (specConnector fs serr) signals inp) = Exited 1
  ∧ (∃ pre e, trace (runWormholeConnector (specConnector fs serr) signals inp)
              = pre ++ [EvLogFatal e; EvExit 1])
  ∧ (EvProbeSerfRaft ∉ trace (runWormholeConnector (specConnector fs serr) signals inp))
  ∧ (∀ d, EvShutdown d ∉ trace (runWormholeConnector (specConnector fs serr) signals inp))
  ∧ NoDup (omap callOf (trace (runWormholeConnector (specConnector fs serr) signals inp)))
  ∧ ∀ w e,
      (NewWormholeConnector w (configOf inp) = Some e
       ∨ (NewWormholeConnector w (configOf inp) = None
          ∧ ListenAndServe w (configOf inp) (flagCertFile inp) (flagKeyFile inp)
              (flagHttpMode inp) = Serving
          ∧ SetupSerfRaft w (configOf inp) = Some e)) →
      flagVerbose inp && flagQuiet inp = false →
      result (runWormholeConnector w signals inp) = Exited 1
      ∧ last (trace (runWormholeConnector w signals inp)) = Some (EvExit 1)
      ∧ EvLogFatal e ∈ trace (runWormholeConnector w signals inp).
Proof.
  intros Hbad.
  assert (Hrun : ∃ pre e,
    runWormholeConnector (specConnector fs serr) signals inp = (pre ++ fatal e, Exited 1)
    ∧ (EvProbeSerfRaft ∉ pre) ∧ ∀ d, EvShutdown d ∉ pre).
  { rewrite run_cases. cbn [NewWormholeConnector ListenAndServe SetupSerfRaft specConnector].
    destruct (flagVerbose inp && flagQuiet inp).
    { eexists _, _. split; [reflexivity|]. split; [|intros d]; intros H; elem_cases H. }
    destruct (pemReadable fs (flagCertFile inp)), (pemReadable fs (flagKeyFile inp)),
      (stateReadable fs (DataDir (configOf inp))); try discriminate Hbad; cbn [andb].
    1: eexists (upToListen inp ++ [EvSetupSerfRaft]), _; rewrite <- app_assoc.
    2-7: eexists _, _.
    all: (split; [reflexivity|]; split; [|intros d]; intros H; elem_cases H). }
  destruct Hrun as (pre & e0 & Hrun & Hprobe & Hshut).
  split_and!.
  - by rewrite Hrun.
  - exists pre, e0. by rewrite Hrun.
  - rewrite Hrun. unfold trace; simpl. intros H. elem_cases H. done.
  - intros d. rewrite Hrun. unfold trace; simpl. intros H. elem_cases H. by eapply Hshut.
  - apply calls_NoDup.
  - intros w e Hfail Hvq. rewrite (run_cases w signals inp), Hvq.
    destruct Hfail as [->|(-> & -> & ->)]; unfold trace, result; simpl;
      (split_and!; [reflexivity | reflexivity |];
       repeat first [apply list_elem_of_here | apply list_elem_of_further]).
Qed.

Lemma unreadable_material_is_fatal_witness :
  result (runWormholeConnector (specConnector noTLS None) [SIGINT] (bare "/home/wormhole"))
  = Exited 1.
Proof.
  refine (proj1 (unreadable_material_is_fatal noTLS None [SIGINT] (bare "/home/wormhole") _)).
  vm_compute. reflexivity.
Defined.

End CmdFacts.

(** * Properties of the election and of tunnel ownership *)

Module ConsensusFacts.
Import Consensus.

Section election.

Variable voters : gset nat.

Local Abbreviation votesFor := (Consensus.votesFor voters).
Local Abbreviation majority := (Consensus.majority voters).
Local Abbreviation electionStep := (Consensus.electionStep voters).
Local Abbreviation electionRun := (Consensus.electionRun voters).
Local Abbreviation inv := (Consensus.inv voters).
Local Abbreviation inv_ballot := (Consensus.inv_ballot voters).
Local Abbreviation inv_leader := (Consensus.inv_leader voters).
Local Abbreviation inv_log := (Consensus.inv_log voters).
Local Abbreviation inv_owner := (Consensus.inv_owner voters).

Lemma peerOf_setPeer st i p j :
  peerOf (setPeer i p st) j = if decide (i = j) then p else peerOf st j.
Proof.
  unfold peerOf, setPeer; simpl. case_decide; subst.
  - by rewrite lookup_insert_eq.
  - by rewrite lookup_insert_ne.
Qed.

Lemma peerOf_castBallot t j c st i : peerOf (castBallot t j c st) i = peerOf st i.
Proof. reflexivity. Qed.

Lemma peerOf_appendLog e st i : peerOf (appendLog e st) i = peerOf st i.
Proof. reflexivity. Qed.

(** Two majorities of the voters share a voter. *)
Lemma quorum_intersect (A B : gset nat) :
  A ⊆ voters → B ⊆ voters → majority A → majority B → ∃ x, x ∈ A ∧ x ∈ B.
Proof.
  unfold Consensus.majority. intros HA HB HmA HmB.
  destruct (set_choose_or_empty (A ∩ B)) as [[x Hx]|Hempty].
  - exists x. set_solver.
  - assert (Hdisj : A ## B) by set_solver.
    pose proof (size_union A B Hdisj) as Hsz.
    assert (Hsub : A ∪ B ⊆ voters) by (by apply union_subseteq).
    apply subseteq_size in Hsub. lia.
Qed.

Lemma votesFor_subseteq st t i : votesFor st t i ⊆ voters.
Proof. unfold Consensus.votesFor. intros x Hx. apply elem_of_filter in Hx. tauto. Qed.

Lemma elem_of_votesFor st t i j :
  j ∈ votesFor st t i ↔ ballots st !! (t, j) = Some i ∧ j ∈ voters.
Proof. unfold Consensus.votesFor. by rewrite elem_of_filter. Qed.

Lemma majority_kept st st' t i :
  ballotsKept st st' → majority (votesFor st t i) → majority (votesFor st' t i).
Proof.
  unfold Consensus.majority. intros Hk Hm.
  assert (Hsub : votesFor st t i ⊆ votesFor st' t i).
  { intros x [Hx ?]%elem_of_votesFor. apply elem_of_votesFor. auto. }
  apply subseteq_size in Hsub. lia.
Qed.

Lemma currentLeadership_elem log e : currentLeadership log = Some e → e ∈ log.
Proof.
  revert e. induction log as [|a log IH]; intros e; simpl; [done|].
  destruct (currentLeadership log) as [b|].
  - case_bool_decide; intros [= <-].
    + right. by apply IH.
    + left.
  - intros [= <-]. left.
Qed.

Lemma inv_start : inv start.
Proof.
  split; simpl.
  - intros t j c. by rewrite lookup_empty.
  - intros i. unfold peerOf; simpl. by rewrite lookup_empty.
  - intros t i H. by apply elem_of_nil in H.
  - intros i t. by rewrite lookup_empty.
Qed.

Lemma inv_timeout st i : inv st → inv (electionStep st (ElectionTimeout i)).
Proof.
  intros [Hb Hl Hlog Ho]. simpl.
  destruct (bool_decide (i ∈ voters) && bool_decide (peerRole (peerOf st i) ≠ Leader))
    eqn:Hg; [|by split].
  apply andb_true_iff in Hg as [Hv%bool_decide_eq_true Hnl%bool_decide_eq_true].
  assert (Hfresh : ballots st !! (S (currentTerm (peerOf st i)), i) = None).
  { destruct (ballots st !! (S (currentTerm (peerOf st i)), i)) eqn:E; [|done].
    apply Hb in E as [E _]. lia. }
  assert (Hkept : ∀ k c, ballots st !! k = Some c →
            <[(S (currentTerm (peerOf st i)), i) := i]> (ballots st) !! k = Some c).
  { intros k c Hk. rewrite lookup_insert_ne; [done|]. intros <-. congruence. }
  split; simpl.
  - intros t j c. rewrite peerOf_castBallot, peerOf_setPeer.
    destruct (decide ((S (currentTerm (peerOf st i)), i) = (t, j))) as [[= <- <-]|Hne].
    + rewrite lookup_insert_eq. intros [= <-]. rewrite decide_True by done. simpl. done.
    + rewrite lookup_insert_ne by done. intros Hc. apply Hb in Hc as [Hle Heq].
      case_decide; subst; simpl; [|done]. split; [lia|]. intros ->. lia.
  - intros j. rewrite peerOf_castBallot, peerOf_setPeer.
    case_decide; subst; simpl; [done|]. apply Hl.
  - intros t j Hin. eapply (majority_kept st); [exact Hkept|]. by apply Hlog.
  - done.
Qed.

Lemma inv_grant st j i t : inv st → inv (electionStep st (GrantVote j i t)).
Proof.
  intros [Hb Hl Hlog Ho]. simpl.
  destruct (bool_decide (j ∈ voters) && bool_decide (ballots st !! (t, i) = Some i)
            && mayGrant (peerOf st j) t i) eqn:Hg; [|by split].
  apply andb_true_iff in Hg as [Hg Hmay].
  apply andb_true_iff in Hg as [Hv%bool_decide_eq_true Hreq%bool_decide_eq_true].
  assert (Hold : ∀ c, ballots st !! (t, j) = Some c → c = i).
  { intros c Hc. apply Hb in Hc as [Hle Heq].
    unfold mayGrant in Hmay. apply orb_true_iff in Hmay as [Hlt|Hsame].
    - apply bool_decide_eq_true in Hlt. lia.
    - apply andb_true_iff in Hsame as [Ht%bool_decide_eq_true Hvf%bool_decide_eq_true].
      rewrite (Heq (eq_sym Ht)) in Hvf. destruct Hvf; congruence. }
  assert (Hterm : currentTerm (peerOf st j) ≤ t).
  { unfold mayGrant in Hmay. apply orb_true_iff in Hmay as [Hlt|Hsame].
    - apply bool_decide_eq_true in Hlt. lia.
    - apply andb_true_iff in Hsame as [Ht%bool_decide_eq_true _]. lia. }
  assert (Hkept : ∀ k c, ballots st !! k = Some c →
                         <[(t, j) := i]> (ballots st) !! k = Some c).
  { intros k c Hk. destruct (decide ((t, j) = k)) as [<-|Hne].
    - rewrite lookup_insert_eq. f_equal. symmetry. by apply Hold.
    - by rewrite lookup_insert_ne. }
  split; simpl.
  - intros t' j' c. rewrite peerOf_castBallot, peerOf_setPeer.
    destruct (decide ((t, j) = (t', j'))) as [[= <- <-]|Hne].
    + rewrite lookup_insert_eq. intros [= <-]. rewrite decide_True by done. simpl. done.
    + rewrite lookup_insert_ne by done. intros Hc. apply Hb in Hc as [Hle Heq].
      case_decide; subst; simpl; [|done]. split; [lia|]. intros ->. congruence.
  - intros k. rewrite peerOf_castBallot, peerOf_setPeer.
    case_decide; subst; simpl; [|apply Hl].
    case_bool_decide; [done|]. intros Hlead.
    assert (currentTerm (peerOf st k) = t) as <- by lia. by apply Hl.
  - intros t' k Hin. eapply (majority_kept st); [exact Hkept|]. by apply Hlog.
  - done.
Qed.

Lemma inv_become st i : inv st → inv (electionStep st (BecomeLeader i)).
Proof.
  intros [Hb Hl Hlog Ho]. simpl.
  destruct (bool_decide (peerRole (peerOf st i) = Candidate)
            && bool_decide (majority (votesFor st (currentTerm (peerOf st i)) i)))
    eqn:Hg; [|by split].
  apply andb_true_iff in Hg as [Hc%bool_decide_eq_true Hm%bool_decide_eq_true].
  split; simpl.
  - intros t j c Hc'. rewrite peerOf_appendLog, peerOf_setPeer.
    apply Hb in Hc'. case_decide; subst; simpl; done.
  - intros k. rewrite peerOf_appendLog, peerOf_setPeer, elem_of_app.
    case_decide; subst; simpl.
    + intros _. right. by apply list_elem_of_singleton.
    + intros Hk. left. by apply Hl.
  - intros t k [Hin|Hin%list_elem_of_singleton]%elem_of_app.
    + by apply Hlog.
    + by injection Hin as -> ->.
  - intros k t Hk. rewrite elem_of_app. left. by apply Ho.
Qed.

Lemma inv_discover st i j : inv st → inv (electionStep st (DiscoverTerm i j)).
Proof.
  intros [Hb Hl Hlog Ho]. simpl.
  case_bool_decide as Hlt; [|by split].
  split; simpl.
  - intros t k c Hc. rewrite peerOf_setPeer. apply Hb in Hc as [Hle Heq].
    case_decide; subst; simpl; [|done]. split; [lia|]. intros ->. lia.
  - intros k. rewrite peerOf_setPeer. case_decide; subst; simpl; [done|]. apply Hl.
  - done.
  - done.
Qed.

Lemma inv_lose st i : inv st → inv (electionStep st (LoseHeartbeatMajority i)).
Proof.
  intros [Hb Hl Hlog Ho]. simpl.
  case_bool_decide as Hlead; [|by split].
  split; simpl.
  - intros t k c Hc. rewrite peerOf_setPeer. apply Hb in Hc as [Hle Heq].
    case_decide; subst; simpl; done.
  - intros k. rewrite peerOf_setPeer. case_decide; subst; simpl; [done|]. apply Hl.
  - done.
  - done.
Qed.

Lemma inv_register st i : inv st → inv (electionStep st (Register i)).
Proof.
  intros [Hb Hl Hlog Ho]. simpl.
  destruct (canRegister st i) eqn:Hg; [|by split].
  apply andb_true_iff in Hg as [_ Hcur%bool_decide_eq_true].
  split; simpl; try done.
  intros k t. destruct (decide (i = k)) as [<-|Hne].
  - rewrite lookup_insert_eq. intros [= <-]. by apply currentLeadership_elem.
  - rewrite lookup_insert_ne by done. apply Ho.
Qed.

Lemma inv_close st i : inv st → inv (electionStep st (CloseSession i)).
Proof.
  intros [Hb Hl Hlog Ho]. split; simpl; try done.
  intros k t [_ Hk]%lookup_delete_Some. by apply Ho.
Qed.

Lemma inv_step st e : inv st → inv (electionStep st e).
Proof.
  destruct e; auto using inv_timeout, inv_grant, inv_become, inv_discover,
    inv_lose, inv_register, inv_close.
Qed.

Lemma inv_foldl st evs : inv st → inv (foldl electionStep st evs).
Proof.
  revert st. induction evs as [|e evs IH]; intros st Hst; simpl; [done|].
  by apply IH, inv_step.
Qed.

Lemma inv_run evs : inv (electionRun evs).
Proof. apply inv_foldl, inv_start. Qed.

(** Election safety: two leadership entries of one term name one Peer. *)
Lemma inv_one_leader st t i j :
  inv st → (t, i) ∈ leaderLog st → (t, j) ∈ leaderLog st → i = j.
Proof.
  intros Hinv Hi Hj.
  destruct (quorum_intersect (votesFor st t i) (votesFor st t j)) as (v & Hvi & Hvj);
    try apply votesFor_subseteq; try by apply (inv_log st Hinv).
  apply elem_of_votesFor in Hvi as [Hvi _]. apply elem_of_votesFor in Hvj as [Hvj _].
  congruence.
Qed.

(** No leadership entry is of a greater term than the current one. *)
Lemma currentLeadership_max log e t i :
  currentLeadership log = Some e → (t, i) ∈ log → t ≤ e.1.
Proof.
  revert e. induction log as [|a log IH]; intros e; simpl.
  { intros _ Hin. by apply elem_of_nil in Hin. }
  intros He [Ha|Hin]%elem_of_cons.
  - subst a. destruct (currentLeadership log) as [b|]; [|by injection He as <-].
    case_bool_decide; injection He as <-; simpl in *; lia.
  - destruct (currentLeadership log) as [b|] eqn:Hb.
    + specialize (IH b eq_refl Hin).
      case_bool_decide; injection He as <-; simpl in *; lia.
    + destruct log as [|a' log']; [by apply elem_of_nil in Hin | simpl in Hb].
      destruct (currentLeadership log'); [case_bool_decide|]; discriminate Hb.
Qed.

End election.

(** ** A three-member cluster *)

Example failover_log : leaderLog (electionRun abc failover) = [(1, 2); (2, 3)].
Proof. vm_compute. reflexivity. Qed.

Example failover_stale_leader :
  peerRole (peerOf (electionRun abc failover) 2) = Leader
  ∧ peerRole (peerOf (electionRun abc failover) 3) = Leader.
Proof. vm_compute. done. Qed.

(** A candidate with its own vote alone is not elected, and a Peer that is
    not the leader is turned away by the Dispatcher. *)
Example minority_not_elected :
  leaderLog (electionRun abc [ElectionTimeout 2; BecomeLeader 2; Register 2]) = []
  ∧ sessions (electionRun abc [ElectionTimeout 2; BecomeLeader 2; Register 2]) = ∅.
Proof. split; [vm_compute; reflexivity|]. apply map_eq. intros k. vm_compute. reflexivity. Qed.



End ConsensusFacts.

(** * Properties of the membership table *)

Module MembershipFacts.
Import Membership.

Section gossip.

Variables (probeThreshold suspectGrace retention : nat).

Local Abbreviation onMiss := (Membership.onMiss probeThreshold).
Local Abbreviation onTick := (Membership.onTick suspectGrace retention).
Local Abbreviation gossipStep := (Membership.gossipStep probeThreshold suspectGrace retention).
Local Abbreviation gossipRun := (Membership.gossipRun probeThreshold suspectGrace retention).

Lemma onAck_transition now p :
  transition (Some (peerStatus p)) (Some (peerStatus (onAck now p))).
Proof. unfold onAck. destruct (peerStatus p) eqn:E; simpl; rewrite ?E; constructor. Qed.

Lemma onMiss_transition now p :
  transition (Some (peerStatus p)) (Some (peerStatus (onMiss now p))).
Proof.
  unfold Membership.onMiss. destruct (peerStatus p) eqn:E; simpl; rewrite ?E; try constructor.
  case_bool_decide; simpl; constructor.
Qed.

Lemma onRefute_transition inc now p :
  transition (Some (peerStatus p)) (Some (peerStatus (onRefute inc now p))).
Proof.
  unfold onRefute. destruct (peerStatus p) eqn:E; simpl; rewrite ?E; try constructor.
  case_bool_decide; simpl; rewrite ?E; constructor.
Qed.

Lemma onLeave_transition now p :
  transition (Some (peerStatus p)) (Some (peerStatus (onLeave now p))).
Proof. unfold onLeave. destruct (peerStatus p) eqn:E; simpl; rewrite ?E; constructor. Qed.

Lemma onTick_transition now p :
  transition (Some (peerStatus p)) (peerStatus <$> onTick now p).
Proof.
  unfold Membership.onTick. destruct (peerStatus p) eqn:E; simpl; rewrite ?E; try constructor;
    case_bool_decide; simpl; rewrite ?E; constructor.
Qed.

Lemma alter_transition f tbl m n :
  (∀ p, transition (Some (peerStatus p)) (Some (peerStatus (f p)))) →
  transition (statusOf tbl n) (statusOf (alter f m tbl) n).
Proof.
  intros Hf. unfold statusOf. rewrite lookup_alter. case_decide; subst; [|constructor].
  destruct (tbl !! n) as [p|]; simpl; [apply Hf | constructor].
Qed.

Lemma step_transition tbl e n : transition (statusOf tbl n) (statusOf (gossipStep tbl e) n).
Proof.
  destruct e as [m now|m now|m now|m inc now|m now|now]; simpl.
  - destruct (tbl !! m) eqn:Hm; [constructor|]. unfold statusOf.
    destruct (decide (m = n)) as [<-|Hne].
    + rewrite lookup_insert_eq, Hm. constructor.
    + rewrite lookup_insert_ne by done. constructor.
  - apply alter_transition, onAck_transition.
  - apply alter_transition, onMiss_transition.
  - apply alter_transition, onRefute_transition.
  - apply alter_transition, onLeave_transition.
  - unfold statusOf. rewrite lookup_omap.
    destruct (tbl !! n) as [p|]; simpl; [apply onTick_transition | constructor].
Qed.

Lemma transition_dead o : transition o (Some Dead) → o = Some Suspect ∨ o = Some Dead.
Proof. inversion 1; auto. Qed.

(** A run that ends with the node dead has a step that took it from
    suspect to dead. *)
Lemma dead_entered tbl evs n :
  statusOf tbl n ≠ Some Dead →
  statusOf (foldl gossipStep tbl evs) n = Some Dead →
  ∃ evs1 e evs2, evs = evs1 ++ e :: evs2
    ∧ statusOf (foldl gossipStep tbl evs1) n = Some Suspect
    ∧ statusOf (foldl gossipStep tbl (evs1 ++ [e])) n = Some Dead.
Proof.
  revert tbl. induction evs as [|e evs IH]; intros tbl Hn Hd; simpl in *; [done|].
  destruct (decide (statusOf (gossipStep tbl e) n = Some Dead)) as [He|He].
  - exists [], e, evs. split; [done|]. simpl. split; [|done].
    pose proof (step_transition tbl e n) as Ht. rewrite He in Ht.
    by destruct (transition_dead _ Ht).
  - destruct (IH _ He Hd) as (evs1 & e' & evs2 & -> & Hs & Hd').
    exists (e :: evs1), e', evs2. done.
Qed.

End gossip.

(** A Peer that misses three probes in a row is suspected, and declared
    dead once the grace period of five time units is over. *)
Example three_misses :
  statusOf (gossipRun 3 5 60 [Join 7 0; ProbeMiss 7 1; ProbeMiss 7 2]) 7 = Some Alive
  ∧ statusOf (gossipRun 3 5 60 [Join 7 0; ProbeMiss 7 1; ProbeMiss 7 2; ProbeMiss 7 3]) 7
    = Some Suspect
  ∧ statusOf (gossipRun 3 5 60 [Join 7 0; ProbeMiss 7 1; ProbeMiss 7 2; ProbeMiss 7 3;
                          Tick 7]) 7 = Some Suspect
  ∧ statusOf (gossipRun 3 5 60 [Join 7 0; ProbeMiss 7 1; ProbeMiss 7 2; ProbeMiss 7 3;
                          Tick 7; Tick 8]) 7 = Some Dead
  ∧ statusOf (gossipRun 3 5 60 [Join 7 0; ProbeMiss 7 1; ProbeMiss 7 2; ProbeMiss 7 3;
                          Refute 7 1 4; Tick 8]) 7 = Some Alive.
Proof. vm_compute. done. Qed.

(** C7.  Every step of the membership table changes the status of a Peer
    along alive to suspect, suspect to dead, the refutation suspect to
    alive, or a departure to left (besides joining and eviction); the only
    status from which dead is entered is suspect, and in every run that
    ends with a Peer dead there is a step that found it suspect and left it
    dead. *)
Theorem dead_only_after_suspect (probeThreshold suspectGrace retention : nat) :
  (∀ tbl e n,
     transition (statusOf tbl n)
       (statusOf (gossipStep probeThreshold suspectGrace retention tbl e) n))
  ∧ (∀ o, transition o (Some Dead) → o = Some Suspect ∨ o = Some Dead)
  ∧ (∀ evs n,
       statusOf (gossipRun probeThreshold suspectGrace retention evs) n = Some Dead →
       ∃ evs1 e evs2, evs = evs1 ++ e :: evs2
         ∧ statusOf (gossipRun probeThreshold suspectGrace retention evs1) n = Some Suspect
         ∧ statusOf (gossipRun probeThreshold suspectGrace retention (evs1 ++ [e])) n
           = Some Dead).
Proof.
  split_and!.
  - apply step_transition.
  - apply transition_dead.
  - intros evs n Hd. apply dead_entered; [|done].
    unfold statusOf. by rewrite lookup_empty.
Qed.

End MembershipFacts.

(** * Properties of the shutdown choreography *)

Module LifecycleFacts.
Import Lifecycle.

Lemma shutdown_not_running d h : hPhase h ≠ Running → shutdown d h = (h, []).
Proof. unfold shutdown. by destruct (hPhase h). Qed.

Lemma shutdown_leaves_running d h : hPhase (shutdown d h).1 ≠ Running.
Proof. unfold shutdown. by destruct (hPhase h) eqn:E; simpl; rewrite ?E. Qed.

Lemma advance_keeps_going h : hPhase h ≠ Running → hPhase (advance h).1 ≠ Running.
Proof. unfold advance. by destruct (hPhase h) eqn:E; simpl; rewrite ?E. Qed.

Lemma exec_keeps_going acts h :
  hPhase h ≠ Running → hPhase (exec acts h).1 ≠ Running.
Proof.
  revert h. induction acts as [|a acts IH]; intros h Hh; simpl; [done|].
  apply IH. destruct a; simpl.
  - by rewrite shutdown_not_running.
  - by apply advance_keeps_going.
Qed.

Lemma exec_app acts1 acts2 h :
  exec (acts1 ++ acts2) h =
  ((exec acts2 (exec acts1 h).1).1, (exec acts1 h).2 ++ (exec acts2 (exec acts1 h).1).2).
Proof.
  revert h. induction acts1 as [|a acts1 IH]; intros h; simpl.
  - by destruct (exec acts2 h).
  - rewrite IH. simpl. by rewrite app_assoc.
Qed.

(** A Stream that needs two time units finishes within a deadline of five,
    one that needs nine is aborted; the departure is announced after the
    Streams are settled and the transport is released last. *)
Example full_shutdown :
  exec [RequestShutdown 5; Progress; Progress; Progress] (started [2; 9])
  = ({| hPhase := Stopped; acceptingSessions := false; acceptingStreams := false;
        inflight := []; member := false; transportOpen := false |},
     [StopAcceptingSessions; StopAcceptingStreams; StreamFinished 2; StreamAborted 9;
      AnnounceDeparture; ReleaseTransport]).
Proof. reflexivity. Qed.

(** C6.  A shutdown request on a handle that is not running, because a
    shutdown is in progress or has completed, returns the handle as it is
    and has no effect.  So a second request right after the first, or after
    the first and any further requests and stages, changes nothing, and a
    run with a repeated request has the final state and the effects of the
    run without it. *)
Theorem shutdown_idempotent :
  (∀ h d, hPhase h ≠ Running → shutdown d h = (h, []))
  ∧ (∀ h d d', shutdown d' (shutdown d h).1 = ((shutdown d h).1, []))
  ∧ (∀ h d acts d',
       shutdown d' (exec (RequestShutdown d :: acts) h).1
       = ((exec (RequestShutdown d :: acts) h).1, []))
  ∧ (∀ h d acts1 d' acts2,
       exec (RequestShutdown d :: acts1 ++ RequestShutdown d' :: acts2) h
       = exec (RequestShutdown d :: acts1 ++ acts2) h).
Proof.
  split_and!.
  - intros h d. apply shutdown_not_running.
  - intros h d d'. apply shutdown_not_running, shutdown_leaves_running.
  - intros h d acts d'. apply shutdown_not_running. simpl.
    apply exec_keeps_going, shutdown_leaves_running.
  - intros h d acts1 d' acts2.
    change (RequestShutdown d :: acts1 ++ RequestShutdown d' :: acts2)
      with ((RequestShutdown d :: acts1) ++ RequestShutdown d' :: acts2).
    change (RequestShutdown d :: acts1 ++ acts2)
      with ((RequestShutdown d :: acts1) ++ acts2).
    rewrite !exec_app.
    assert (Hgo : hPhase (exec (RequestShutdown d :: acts1) h).1 ≠ Running).
    { simpl. apply exec_keeps_going, shutdown_leaves_running. }
    set (h1 := (exec (RequestShutdown d :: acts1) h).1) in *.
    change (exec (RequestShutdown d' :: acts2) h1)
      with ((exec acts2 (shutdown d' h1).1).1,
            (shutdown d' h1).2 ++ (exec acts2 (shutdown d' h1).1).2).
    by rewrite (shutdown_not_running d' _ Hgo).
Qed.

End LifecycleFacts.

(** * Further properties of the entry point *)

Module CmdExtras.
Import Cmd CmdFacts.

Lemma probeLoop_not_exited w cfg c signals code :
  probeLoop w cfg c signals ≠ Exited code.
Proof.
  revert c. induction signals as [|s rest IH]; intros c; simpl;
    destruct (ProbeSerfRaft w cfg c); try discriminate.
  destruct (relays c s); [apply IH | discriminate].
Qed.


(** X1.  In every run the calls into the connector are an initial part
    of the sequence [NewWormholeConnector], [ListenAndServe],
    [SetupSerfRaft], [ProbeSerfRaft], [Shutdown], and a method is called
    exactly when every earlier one came back without an error:
    [NewWormholeConnector] unless both the verbose and the quiet flag are
    set, [ListenAndServe] when the construction returned no error,
    [SetupSerfRaft] when the listener came back, [ProbeSerfRaft] when the
    setup returned no error, [Shutdown] when the probe returned nil.  All
    five are called exactly in the runs that end with exit status 0. *)
Theorem calls_in_order (w : connector) (signals : list signal) (inp : inputs) :
  omap callOf (trace (runWormholeConnector w signals inp)) `prefix_of` callOrder
  ∧ (omap callOf (trace (runWormholeConnector w signals inp)) = callOrder
     ↔ result (runWormholeConnector w signals inp) = Exited 0)
  ∧ (CallNew ∈ omap callOf (trace (runWormholeConnector w signals inp))
     ↔ flagVerbose inp && flagQuiet inp = false)
  ∧ (CallListenAndServe ∈ omap callOf (trace (runWormholeConnector w signals inp))
     ↔ flagVerbose inp && flagQuiet inp = false
       ∧ NewWormholeConnector w (configOf inp) = None)
  ∧ (CallSetupSerfRaft ∈ omap callOf (trace (runWormholeConnector w signals inp))
     ↔ flagVerbose inp && flagQuiet inp = false
       ∧ NewWormholeConnector w (configOf inp) = None
       ∧ ListenAndServe w (configOf inp) (flagCertFile inp) (flagKeyFile inp)
           (flagHttpMode inp) = Serving)
  ∧ (CallProbeSerfRaft ∈ omap callOf (trace (runWormholeConnector w signals inp))
     ↔ flagVerbose inp && flagQuiet inp = false
       ∧ NewWormholeConnector w (configOf inp) = None
       ∧ ListenAndServe w (configOf inp) (flagCertFile inp) (flagKeyFile inp)
           (flagHttpMode inp) = Serving
       ∧ SetupSerfRaft w (configOf inp) = None)
  ∧ (CallShutdown ∈ omap callOf (trace (runWormholeConnector w signals inp))
     ↔ flagVerbose inp && flagQuiet inp = false
       ∧ NewWormholeConnector w (configOf inp) = None
       ∧ ListenAndServe w (configOf inp) (flagCertFile inp) (flagKeyFile inp)
           (flagHttpMode inp) = Serving
       ∧ SetupSerfRaft w (configOf inp) = None
       ∧ probeLoop w (configOf inp) (Notify 2 [Interrupt]) signals = Done None).
Proof.
  change (Notify 2 [Interrupt]) with term0.
  run_split w signals inp;
    try (exfalso; eapply probeLoop_not_exited; eassumption);
    unfold trace, result, upToProbe, upToListen, upToNew, shutdownPath, fatal, callOrder;
    simpl;
    (split_and!;
     [ by eexists
     | split; intros; (done || discriminate)
     | split; [intros H | intros; repeat first [apply list_elem_of_here
                                                | apply list_elem_of_further]].. ]);
    try (split_and?; (reflexivity || assumption));
    try (repeat (apply elem_of_cons in H as [H|H]; [discriminate H|]);
         by apply elem_of_nil in H);
    try (exfalso; intuition congruence).
Qed.

(** X2.  A run that exits does so with status 0 or 1, and the exit is its
    last event.  The status is 1 exactly when a fatal log entry was written
    and 0 exactly when [Shutdown] was called; so a run with a fatal entry
    never shuts the handle down, also when the connector is already
    serving.  Every [Shutdown] gets the same grace deadline of five
    seconds, whatever the settings. *)
Theorem exit_status (w : connector) (signals : list signal) (inp : inputs) :
  (∀ c, result (runWormholeConnector w signals inp) = Exited c →
        (c = 0 ∨ c = 1)%Z
        ∧ last (trace (runWormholeConnector w signals inp)) = Some (EvExit c))
  ∧ (∀ c, EvExit c ∈ trace (runWormholeConnector w signals inp) →
          result (runWormholeConnector w signals inp) = Exited c)
  ∧ (result (runWormholeConnector w signals inp) = Exited 1
     ↔ ∃ e, EvLogFatal e ∈ trace (runWormholeConnector w signals inp))
  ∧ (result (runWormholeConnector w signals inp) = Exited 0
     ↔ ∃ d, EvShutdown d ∈ trace (runWormholeConnector w signals inp))
  ∧ ((∃ e, EvLogFatal e ∈ trace (runWormholeConnector w signals inp)) →
     ∀ d, EvShutdown d ∉ trace (runWormholeConnector w signals inp))
  ∧ (∀ d, EvShutdown d ∈ trace (runWormholeConnector w signals inp) →
          d = 5000000000%Z).
Proof.
  split_and!.
  - intros c. run_split w signals inp;
      try (exfalso; eapply probeLoop_not_exited; eassumption);
      intros [= <-]; (split; [auto | reflexivity]).
  - intros c. run_split w signals inp;
      try (exfalso; eapply probeLoop_not_exited; eassumption);
      intros H; elem_cases H; simplify_eq; reflexivity.
  - run_split w signals inp;
      try (exfalso; eapply probeLoop_not_exited; eassumption);
      (split; [intros H | intros [x H]]);
      try discriminate H; try (elem_cases H; fail);
      try reflexivity;
      eexists; unfold trace, upToProbe, upToListen, upToNew, fatal; simpl;
      repeat first [apply list_elem_of_here | apply list_elem_of_further].
  - run_split w signals inp;
      try (exfalso; eapply probeLoop_not_exited; eassumption);
      (split; [intros H | intros [x H]]);
      try discriminate H; try (elem_cases H; fail);
      try reflexivity;
      eexists; unfold trace, upToProbe, upToListen, upToNew, shutdownPath; simpl;
      repeat first [apply list_elem_of_here | apply list_elem_of_further].
  - intros [x He] d. revert He. run_split w signals inp;
      try (exfalso; eapply probeLoop_not_exited; eassumption);
      intros He H; elem_cases H; elem_cases He.
  - intros d. run_split w signals inp;
      try (exfalso; eapply probeLoop_not_exited; eassumption);
      intros H; elem_cases H. by injection H as ->.
Qed.

(** X4.  The settings do not cross.  The environment and the config file
    reach neither [setLogLevel] nor the certificate, key and http mode
    handed to [ListenAndServe]: these come from the command line alone.
    The flags [config], [cert-file], [key-file], [verbose] and [quiet] do
    not reach the configuration value, and no flag but [verbose] and
    [quiet] reaches [setLogLevel]. *)
Theorem settings_do_not_cross (inp : inputs) :
  (∀ env file, setLogLevel (withSources env file inp) = setLogLevel inp)
  ∧ (∀ env file,
       flagCertFile (withSources env file inp) = flagCertFile inp
       ∧ flagKeyFile (withSources env file inp) = flagKeyFile inp
       ∧ flagHttpMode (withSources env file inp) = flagHttpMode inp)
  ∧ (∀ f v, f ∈ flagsOutsideConfig → configOf (setFlag f v inp) = configOf inp)
  ∧ (∀ f v, f ≠ "verbose" → f ≠ "quiet" →
            setLogLevel (setFlag f v inp) = setLogLevel inp).
Proof.
  split_and!.
  - reflexivity.
  - intros env file. split_and!; reflexivity.
  - intros f v Hf. unfold configOf. rewrite !viperGet_setFlag.
    unfold flagsOutsideConfig in Hf.
    repeat (apply elem_of_cons in Hf as [->|Hf]); [reflexivity..|].
    by apply elem_of_nil in Hf.
  - intros f v Hv Hq. unfold setLogLevel, flagVerbose, flagQuiet, flagVar, setFlag.
    cbn [in_flags in_home]. by rewrite !lookup_insert_ne.
Qed.

Lemma elem_of_configReads_iff k : EvViperGet k ∈ configReads ↔ k ∈ configKeys.
Proof.
  change configReads with (EvViperGet <$> configKeys).
  rewrite list_elem_of_fmap. split.
  - by intros (k' & [= ->] & Hk).
  - intros Hk. by exists k.
Qed.

(** A run is the configuration reads followed by events that read
    nothing. *)
Lemma reads_come_first w signals inp :
  ∃ rest, trace (runWormholeConnector w signals inp) = configReads ++ rest
          ∧ ∀ k, EvViperGet k ∉ rest.
Proof.
  run_split w signals inp;
    unfold trace, upToProbe, upToListen, upToNew; simpl; rewrite <- ?app_assoc;
    (eexists; split; [reflexivity|]);
    intros k H; unfold shutdownPath, fatal in H; simpl in H;
    repeat (apply elem_of_cons in H as [H|H]; [discriminate H|]);
    by apply elem_of_nil in H.
Qed.

Lemma assoc_Some_elem {A} k (a : A) l : assoc k l = Some a → (k, a) ∈ l.
Proof.
  induction l as [|[k' a'] l IH]; simpl; [done|].
  case_decide; subst.
  - intros [= ->]. left.
  - intros Hl. right. by apply IH.
Qed.

(** X5.  Every run reads the same eleven viper keys, once each, before
    anything else.  Each of them is bound in [init] to a registered flag.
    The keys [config], [certFile] and [keyFile] are bound in [init] too,
    but no run ever reads them. *)
Theorem viper_reads (w : connector) (signals : list signal) (inp : inputs) :
  (∀ k, EvViperGet k ∈ trace (runWormholeConnector w signals inp) ↔ k ∈ configKeys)
  ∧ take (length configKeys) (trace (runWormholeConnector w signals inp))
    = EvViperGet <$> configKeys
  ∧ NoDup configKeys
  ∧ (∀ k, k ∈ configKeys →
          ∃ f d, assoc k bindings = Some f
                 ∧ assoc f (persistentFlags (in_home inp)) = Some d)
  ∧ (∀ k, k ∈ ["config"; "certFile"; "keyFile"] →
          is_Some (assoc k bindings)
          ∧ EvViperGet k ∉ trace (runWormholeConnector w signals inp)).
Proof.
  destruct (reads_come_first w signals inp) as (rest & Ht & Hrest).
  assert (Hiff : ∀ k, EvViperGet k ∈ trace (runWormholeConnector w signals inp)
                      ↔ k ∈ configKeys).
  { intros k. rewrite Ht, elem_of_app, elem_of_configReads_iff.
    split; [intros [Hk|Hk]; [done | by apply Hrest in Hk] | by left]. }
  split_and!.
  - exact Hiff.
  - rewrite Ht. reflexivity.
  - apply (bool_decide_unpack _). vm_compute. reflexivity.
  - intros k Hk. unfold configKeys in Hk.
    repeat (apply elem_of_cons in Hk as [->|Hk]); try (by eexists _, _);
      by apply elem_of_nil in Hk.
  - intros k Hk. rewrite Hiff.
    repeat (apply elem_of_cons in Hk as [->|Hk]);
      try (split; [by eexists | intros H; unfold configKeys in H;
             repeat (apply elem_of_cons in H as [H|H]; [discriminate H|]);
             by apply elem_of_nil in H]);
      by apply elem_of_nil in Hk.
Qed.

(** X6.  The bindings of [init] are one to one: every binding names a
    registered flag, no flag is registered twice, no key is bound twice and
    no flag is bound to two keys.  So giving a flag on the command line
    changes what viper holds for at most one key. *)
Theorem bindings_one_to_one :
  (∀ k f home, assoc k bindings = Some f → is_Some (assoc f (persistentFlags home)))
  ∧ (∀ k k' f, assoc k bindings = Some f → assoc k' bindings = Some f → k = k')
  ∧ (∀ home, NoDup (persistentFlags home).*1) ∧ NoDup bindings.*1
  ∧ (∀ inp f v k k',
       viperGet (setFlag f v inp) k ≠ viperGet inp k →
       viperGet (setFlag f v inp) k' ≠ viperGet inp k' → k = k').
Proof.
  assert (Hinj : ∀ k k' f, assoc k bindings = Some f → assoc k' bindings = Some f → k = k').
  { assert (Hall : Forall (λ p, Forall (λ q, p.2 = q.2 → p.1 = q.1) bindings) bindings)
      by (apply (bool_decide_unpack _); vm_compute; reflexivity).
    intros k k' f Hk%assoc_Some_elem Hk'%assoc_Some_elem.
    rewrite Forall_forall in Hall. specialize (Hall _ Hk).
    rewrite Forall_forall in Hall. by apply (Hall _ Hk'). }
  split_and!.
  - assert (Hall : ∀ home,
              Forall (λ p, is_Some (assoc p.2 (persistentFlags home))) bindings).
    { intros home. unfold bindings. repeat (constructor; [by eexists|]). constructor. }
    intros k f home Hk%assoc_Some_elem. specialize (Hall home).
    rewrite Forall_forall in Hall. apply (Hall _ Hk).
  - exact Hinj.
  - intros home. apply (bool_decide_unpack _). vm_compute. reflexivity.
  - apply (bool_decide_unpack _). vm_compute. reflexivity.
  - intros inp f v k k'. rewrite !viperGet_setFlag.
    destruct (assoc k bindings) as [fk|] eqn:Hk; [|done].
    destruct (assoc k' bindings) as [fk'|] eqn:Hk'; [|done].
    repeat case_decide; try done. subst. intros _ _. by eapply Hinj.
Qed.

(** For a bound key, viper holds what the flag variable holds when the
    flag was given, and when neither the environment nor the config file
    has the key. *)
Lemma viperGet_flagVar inp k f :
  assoc k bindings = Some f →
  is_Some (in_flags inp !! f) ∨ (in_env inp !! k = None ∧ in_file inp !! k = None) →
  viperGet inp k = flagVar inp f.
Proof.
  intros Hk Hsrc. unfold viperGet, flagVar. rewrite Hk.
  destruct (in_flags inp !! f) as [v|]; [done|].
  destruct Hsrc as [[v Hv]|[-> ->]]; [discriminate Hv | done].
Qed.

(** X7.  When the http mode is given on the command line, or set neither in
    the environment nor in the config file, the mode the connector is
    constructed with is the mode [ListenAndServe] is called with. *)
Theorem constructed_mode_is_served_mode (w : connector) (signals : list signal)
    (inp : inputs) (cfg : WormholeConnectorConfig) (cert key : string) (http : bool) :
  is_Some (in_flags inp !! "http-mode")
  ∨ (in_env inp !! "httpMode" = None ∧ in_file inp !! "httpMode" = None) →
  EvNewWormholeConnector cfg ∈ trace (runWormholeConnector w signals inp) →
  EvListenAndServe cert key http ∈ trace (runWormholeConnector w signals inp) →
  HttpMode cfg = http.
Proof.
  intros Hsrc Hnew Hlisten.
  assert (Hagree : HttpMode (configOf inp) = flagHttpMode inp).
  { unfold configOf, flagHttpMode; simpl. by rewrite (viperGet_flagVar inp _ "http-mode"). }
  revert Hnew Hlisten. run_split w signals inp; intros Hnew Hlisten;
    elem_cases Hnew; elem_cases Hlisten; simplify_eq; exact Hagree.
Qed.

Lemma constructed_mode_is_served_mode_witness :
  HttpMode (configOf (setFlag "http-mode" (VBool true) fromFile)) = true.
Proof.
  refine (constructed_mode_is_served_mode (nominal None) [SIGINT]
            (setFlag "http-mode" (VBool true) fromFile) _
            "connector.pem" "connector-key.pem" true _ _ _).
  - left. vm_compute. by eexists.
  - vm_compute. do 13 apply list_elem_of_further. apply list_elem_of_here.
  - vm_compute. do 14 apply list_elem_of_further. apply list_elem_of_here.
Defined.

(** X8.  A run depends on what the process was started with only through
    the configuration value and the five flag variables [flagVerbose],
    [flagQuiet], [flagCertFile], [flagKeyFile] and [flagHttpMode]. *)
Theorem run_determined_by_config_and_flags (w : connector) (signals : list signal)
    (inp inp' : inputs) :
  configOf inp = configOf inp' →
  flagVerbose inp = flagVerbose inp' → flagQuiet inp = flagQuiet inp' →
  flagCertFile inp = flagCertFile inp' → flagKeyFile inp = flagKeyFile inp' →
  flagHttpMode inp = flagHttpMode inp' →
  runWormholeConnector w signals inp = runWormholeConnector w signals inp'.
Proof.
  intros Hcfg Hv Hq Hc Hk Hh. rewrite !run_cases.
  unfold upToProbe, upToListen, upToNew, levelOf.
  by rewrite Hcfg, Hv, Hq, Hc, Hk, Hh.
Qed.

Lemma run_determined_by_config_and_flags_witness :
  runWormholeConnector (nominal None) [SIGINT] (bare "/home/wormhole")
  = runWormholeConnector (nominal None) [SIGINT]
      (setFile "keyFile" (VString "/etc/wormhole/tls/server-key.pem")
         (setFile "certFile" (VString "/etc/wormhole/tls/server.pem")
            (bare "/home/wormhole"))).
Proof.
  apply run_determined_by_config_and_flags; vm_compute; reflexivity.
Defined.

End CmdExtras.
